(** * MD4 digest engine of pppd (pppd/ppp-md4.c), native backend

    A shallow embedding of the [!OPENSSL_HAVE_MD4] half of ppp-md4.c:
    Rivest's md4.c ([MD4Init], [MDblock], [MD4Update], [MD4Final],
    [MD4Print]) and the adapter built on it ([md4_init], [md4_update],
    [md4_final], [md4_clean]).

    Conventions.
    - [unsigned int] is a 32-bit quantity (the file's own implementation
      note); an [unsigned int] or [unsigned char] value is a [Z] and every
      wrap-around of the C arithmetic is written out with [u32] or [u8].
    - Arrays are lists, read with [!!!] and written with [<[i:=v]>].
    - A C function that may run into undefined behaviour returns an
      [option]: [None] is undefined behaviour.  What is followed in this
      way is a read or a write through a null pointer and a step past the
      end of [count].  Two operations that ISO C leaves undefined are
      given the value that every compiler with a 32-bit [int] gives them,
      so that [Some] tells what is computed and does not by itself tell
      that the call is defined: a read past the bytes a pointer is
      modelled with gives 0 ([MD4Update] copies [X[0..byte]], one byte
      more than it uses), and [Xb[3] << 24] in [MDblock], which overflows
      [int] for a byte of 0x80 and more, is the shift modulo 2^32.
    - What a function prints on standard output is returned as a list of
      [message]s, one for each call of [printf]; [stdout] gives the
      characters.
    - The scratch array [XX] of [MD4Update] is not initialised; what it
      holds on entry is a parameter [XX] of the functions that reach it. *)

From Stdlib Require Import ZArith Lia String Ascii DecimalString.
From stdpp Require Import base tactics option list numbers.

Local Open Scope Z_scope.

(** ** C integer types *)

(** Conversion to [unsigned int]. *)
Definition u32 (z : Z) : Z := z `mod` 2 ^ 32.

(** Conversion to [unsigned char]. *)
Definition u8 (z : Z) : Z := z `mod` 2 ^ 8.

(** Conversion to [int] (two's complement, as every supported compiler
    implements the out-of-range case). *)
Definition s32 (z : Z) : Z :=
  let r := z `mod` 2 ^ 32 in if r <? 2 ^ 31 then r else r - 2 ^ 32.

(** [for (i = lo; i < hi; i++) s = body i s;] *)
Definition for_loop {S : Type} (lo hi : nat) (body : nat → S → S) (s : S) : S :=
  fold_left (λ s i, body i s) (seq lo (hi - lo)) s.

(** A pointer to [unsigned char]: [NULL], or the bytes found in memory from
    the address on.  Reading through [NULL] is undefined; an address past
    the end of the list reads as 0. *)
Definition ptr : Type := option (list Z).
Definition NULL : ptr := None.

(** [p + n] *)
Definition ptr_add (p : ptr) (n : nat) : ptr := drop n <$> p.

(** ** The digest context *)

Record MD4_CTX : Type := Build_MD4_CTX {
  buffer : list Z;  (* unsigned int buffer[4]: the 4-word result *)
  count : list Z;   (* unsigned char count[8]: number of bits processed *)
  done : Z          (* unsigned int done: nonzero means finished *)
}.

#[export] Instance MD4_CTX_eq_dec : EqDecision MD4_CTX.
Proof. solve_decision. Defined.

(** Standard output: the two diagnostics of [MD4Update], that is its two
    calls of [printf]; the second is given the [unsigned int] [count]. *)
Inductive message : Type :=
  | Error_already_done
      (* printf("\nError: MD4Update MD already done.") *)
  | Error_illegal_count (n : Z)
      (* printf("\nError: MD4Update called with illegal count value %d.", n) *).

(** [%d] given an [unsigned int]: the [int] with the same 32 bits, in
    decimal.  From 2^31 on the number shown is negative. *)
Definition printf_d (n : Z) : string := NilZero.string_of_int (Z.to_int (s32 n)).

(** The characters of a [message]; the format strings start with a new
    line. *)
Definition text (m : message) : string :=
  match m with
  | Error_already_done =>
      String "010"%char "Error: MD4Update MD already done."
  | Error_illegal_count n =>
      String "010"%char
        ("Error: MD4Update called with illegal count value " ++ printf_d n ++ ".")%string
  end.

(** The characters printed, in order. *)
Definition stdout (msgs : list message) : string :=
  fold_right (λ m s, (text m ++ s)%string) EmptyString msgs.

(** ** Magic constants *)

Definition I0 : Z := 0x67452301.
Definition I1 : Z := 0xefcdab89.
Definition I2 : Z := 0x98badcfe.
Definition I3 : Z := 0x10325476.

(** [013240474631] and [015666365641] are octal literals. *)
Definition octal (digits : list Z) : Z := fold_left (λ acc d, 8 * acc + d) digits 0.
Definition C2 : Z := Eval cbv in octal [1;3;2;4;0;4;7;4;6;3;1].
Definition C3 : Z := Eval cbv in octal [1;5;6;6;6;3;6;5;6;4;1].

Definition fs1 : Z := 3.
Definition fs2 : Z := 7.
Definition fs3 : Z := 11.
Definition fs4 : Z := 19.
Definition gs1 : Z := 3.
Definition gs2 : Z := 5.
Definition gs3 : Z := 9.
Definition gs4 : Z := 13.
Definition hs1 : Z := 3.
Definition hs2 : Z := 9.
Definition hs3 : Z := 11.
Definition hs4 : Z := 15.

(** ** Macros *)

(** [~X] on an [unsigned int]. *)
Definition not32 (X : Z) : Z := u32 (Z.lnot X).

(** [#define f(X,Y,Z) ((X&Y) | ((~X)&Z))] *)
Definition f (X Y Z : BinNums.Z) : BinNums.Z := Z.lor (Z.land X Y) (Z.land (not32 X) Z).
(** [#define g(X,Y,Z) ((X&Y) | (X&Z) | (Y&Z))] *)
Definition g (X Y Z : BinNums.Z) : BinNums.Z := Z.lor (Z.lor (Z.land X Y) (Z.land X Z)) (Z.land Y Z).
(** [#define h(X,Y,Z) (X^Y^Z)] *)
Definition h (X Y Z : BinNums.Z) : BinNums.Z := Z.lxor (Z.lxor X Y) Z.
(** [#define rot(X,S) (tmp=X,(tmp<<S) | (tmp>>(32-S)))] *)
Definition rot (X S : Z) : Z :=
  let tmp := u32 X in Z.lor (u32 (Z.shiftl tmp S)) (Z.shiftr tmp (32 - S)).
(** The four working variables [A], [B], [C], [D] of [MDblock].  The
    macros below assign to the variable named by their first argument. *)
Module Reg.
Inductive t : Set := A | B | C | D.
End Reg.

Record vars : Type := Vars { var_A : Z; var_B : Z; var_C : Z; var_D : Z }.

Definition value (r : Reg.t) (v : vars) : Z :=
  match r with
  | Reg.A => var_A v | Reg.B => var_B v | Reg.C => var_C v | Reg.D => var_D v
  end.

Definition assign (r : Reg.t) (x : Z) (v : vars) : vars :=
  match r with
  | Reg.A => Vars x (var_B v) (var_C v) (var_D v)
  | Reg.B => Vars (var_A v) x (var_C v) (var_D v)
  | Reg.C => Vars (var_A v) (var_B v) x (var_D v)
  | Reg.D => Vars (var_A v) (var_B v) (var_C v) x
  end.

(** [#define ff(A,B,C,D,i,s) A = rot((A + f(B,C,D) + X[i]),s)] *)
Definition ff (X : list Z) (A B C D : Reg.t) (i : nat) (s : Z) (v : vars) : vars :=
  assign A (rot (value A v + f (value B v) (value C v) (value D v) + X !!! i) s) v.
(** [#define gg(A,B,C,D,i,s) A = rot((A + g(B,C,D) + X[i] + C2),s)] *)
Definition gg (X : list Z) (A B C D : Reg.t) (i : nat) (s : Z) (v : vars) : vars :=
  assign A (rot (value A v + g (value B v) (value C v) (value D v) + X !!! i + C2) s) v.
(** [#define hh(A,B,C,D,i,s) A = rot((A + h(B,C,D) + X[i] + C3),s)] *)
Definition hh (X : list Z) (A B C D : Reg.t) (i : nat) (s : Z) (v : vars) : vars :=
  assign A (rot (value A v + h (value B v) (value C v) (value D v) + X !!! i + C3) s) v.

(** ** MD4Init *)

Definition MD4Init (MDp : MD4_CTX) : MD4_CTX :=
  let MDp := Build_MD4_CTX (<[0%nat := I0]> (buffer MDp)) (count MDp) (done MDp) in
  let MDp := Build_MD4_CTX (<[1%nat := I1]> (buffer MDp)) (count MDp) (done MDp) in
  let MDp := Build_MD4_CTX (<[2%nat := I2]> (buffer MDp)) (count MDp) (done MDp) in
  let MDp := Build_MD4_CTX (<[3%nat := I3]> (buffer MDp)) (count MDp) (done MDp) in
  let MDp := for_loop 0 8 (λ i MDp,
               Build_MD4_CTX (buffer MDp) (<[i := 0]> (count MDp)) (done MDp)) MDp in
  Build_MD4_CTX (buffer MDp) (count MDp) 0.

(** ** MDblock *)

(** The first loop of [MDblock]:
    [X[i] = Xb[0] + (Xb[1] << 8) + (Xb[2] << 16) + (Xb[3] << 24); Xb += 4;] *)
Definition MDblock_X (Xb : list Z) : list Z :=
  for_loop 0 16 (λ i X,
    let Xb := drop (4 * i) Xb in
    <[i := u32 (Xb !!! 0%nat + Z.shiftl (Xb !!! 1%nat) 8
                + Z.shiftl (Xb !!! 2%nat) 16 + Z.shiftl (Xb !!! 3%nat) 24)]> X)
    (replicate 16 0).

Section MDblock.
Import Reg.

Definition MDblock (MDp : MD4_CTX) (Xb : list Z) : MD4_CTX :=
  let X := MDblock_X Xb in
  let v := Vars (buffer MDp !!! 0%nat) (buffer MDp !!! 1%nat)
                (buffer MDp !!! 2%nat) (buffer MDp !!! 3%nat) in
  (* Update the message digest buffer *)
  let v := ff X A B C D  0 fs1 v in (* Round 1 *)
  let v := ff X D A B C  1 fs2 v in
  let v := ff X C D A B  2 fs3 v in
  let v := ff X B C D A  3 fs4 v in
  let v := ff X A B C D  4 fs1 v in
  let v := ff X D A B C  5 fs2 v in
  let v := ff X C D A B  6 fs3 v in
  let v := ff X B C D A  7 fs4 v in
  let v := ff X A B C D  8 fs1 v in
  let v := ff X D A B C  9 fs2 v in
  let v := ff X C D A B 10 fs3 v in
  let v := ff X B C D A 11 fs4 v in
  let v := ff X A B C D 12 fs1 v in
  let v := ff X D A B C 13 fs2 v in
  let v := ff X C D A B 14 fs3 v in
  let v := ff X B C D A 15 fs4 v in
  let v := gg X A B C D  0 gs1 v in (* Round 2 *)
  let v := gg X D A B C  4 gs2 v in
  let v := gg X C D A B  8 gs3 v in
  let v := gg X B C D A 12 gs4 v in
  let v := gg X A B C D  1 gs1 v in
  let v := gg X D A B C  5 gs2 v in
  let v := gg X C D A B  9 gs3 v in
  let v := gg X B C D A 13 gs4 v in
  let v := gg X A B C D  2 gs1 v in
  let v := gg X D A B C  6 gs2 v in
  let v := gg X C D A B 10 gs3 v in
  let v := gg X B C D A 14 gs4 v in
  let v := gg X A B C D  3 gs1 v in
  let v := gg X D A B C  7 gs2 v in
  let v := gg X C D A B 11 gs3 v in
  let v := gg X B C D A 15 gs4 v in
  let v := hh X A B C D  0 hs1 v in (* Round 3 *)
  let v := hh X D A B C  8 hs2 v in
  let v := hh X C D A B  4 hs3 v in
  let v := hh X B C D A 12 hs4 v in
  let v := hh X A B C D  2 hs1 v in
  let v := hh X D A B C 10 hs2 v in
  let v := hh X C D A B  6 hs3 v in
  let v := hh X B C D A 14 hs4 v in
  let v := hh X A B C D  1 hs1 v in
  let v := hh X D A B C  9 hs2 v in
  let v := hh X C D A B  5 hs3 v in
  let v := hh X B C D A 13 hs4 v in
  let v := hh X A B C D  3 hs1 v in
  let v := hh X D A B C 11 hs2 v in
  let v := hh X C D A B  7 hs3 v in
  let v := hh X B C D A 15 hs4 v in
  let b := buffer MDp in
  let b := <[0%nat := u32 (b !!! 0%nat + var_A v)]> b in
  let b := <[1%nat := u32 (b !!! 1%nat + var_B v)]> b in
  let b := <[2%nat := u32 (b !!! 2%nat + var_C v)]> b in
  let b := <[3%nat := u32 (b !!! 3%nat + var_D v)]> b in
  Build_MD4_CTX b (count MDp) (done MDp).

End MDblock.

(** ** MD4Update *)

(** [while (tmp) { tmp += *p; *p++ = tmp; tmp = tmp >> 8; }] with [p] walking
    through [MDp->count].  [p] is the part of the array not yet visited;
    stepping past its end is undefined behaviour. *)
Fixpoint count_loop (tmp : Z) (p : list Z) : option (list Z) :=
  if tmp =? 0 then Some p
  else match p with
       | [] => None
       | b :: p =>
           let tmp := u32 (tmp + b) in
           (λ p, u8 tmp :: p) <$> count_loop (Z.shiftr tmp 8) p
       end.

(** [XX] is what the local array [unsigned char XX[64]] holds on entry: it
    is not initialised by the function. *)
Definition MD4Update (XX : list Z) (MDp : MD4_CTX) (X : ptr) (count_ : Z)
    : option (MD4_CTX * list message) :=
  if bool_decide (count_ = 0) && negb (bool_decide (done MDp = 0)) then
    Some (MDp, [])
  else if negb (bool_decide (done MDp = 0)) then
    Some (MDp, [Error_already_done])
  else
    (* Add count to MDp->count *)
    cnt ← count_loop count_ (count MDp);
    let MDp := Build_MD4_CTX (buffer MDp) cnt (done MDp) in
    (* Process data *)
    if bool_decide (count_ = 512) then
      Xb ← X;
      Some (MDblock MDp Xb, [])
    else if bool_decide (count_ > 512) then
      Some (MDp, [Error_illegal_count count_])
    else
      let byte := Z.to_nat (Z.shiftr count_ 3) in
      let bit := Z.land count_ 7 in
      XX ← (if bool_decide (count_ = 0) then Some XX
            else Xb ← X;
                 Some (for_loop 0 (byte + 1) (λ i XX, <[i := Xb !!! i]> XX) XX));
      let XX := for_loop (byte + 1) 64 (λ i XX, <[i := 0]> XX) XX in
      let mask := Z.shiftl 1 (7 - bit) in
      let XX := <[byte := u8 (Z.land (Z.lor (XX !!! byte) mask) (not32 (mask - 1)))]> XX in
      if bool_decide (byte ≤ 55)%nat then
        let XX := for_loop 0 8 (λ i XX, <[(56 + i)%nat := count MDp !!! i]> XX) XX in
        let MDp := MDblock MDp XX in
        Some (Build_MD4_CTX (buffer MDp) (count MDp) 1, [])
      else
        let MDp := MDblock MDp XX in
        let XX := for_loop 0 56 (λ i XX, <[i := 0]> XX) XX in
        let XX := for_loop 0 8 (λ i XX, <[(56 + i)%nat := count MDp !!! i]> XX) XX in
        let MDp := MDblock MDp XX in
        Some (Build_MD4_CTX (buffer MDp) (count MDp) 1, []).

(** ** MD4Final *)

(** Returns the 16 bytes stored through [buf], the context and what was
    printed. *)
Definition MD4Final (XX : list Z) (MD : MD4_CTX)
    : option (list Z * MD4_CTX * list message) :=
  '(MD, msgs) ← MD4Update XX MD NULL 0;
  let buf :=
    for_loop 0 4 (λ i buf,
      let w := buffer MD !!! i in
      snd (for_loop 0 4 (λ j '(w, buf), (Z.shiftr w 8, buf ++ [u8 w])) (w, buf))) [] in
  Some (buf, MD, msgs).

(** ** MD4Print *)

Definition hex_digit (d : Z) : ascii :=
  default "?"%char (list_ascii_of_string "0123456789abcdef" !! Z.to_nat d).

(** [printf("%02x", v)] for [0 <= v < 256]. *)
Definition printf_02x (v : Z) : string :=
  String (hex_digit (v / 16)) (String (hex_digit (v `mod` 16)) EmptyString).

Definition MD4Print (MDp : MD4_CTX) : string :=
  for_loop 0 4 (λ i out,
    for_loop 0 4 (λ j8 out,
      let j := 8 * Z.of_nat j8 in
      (out ++ printf_02x (Z.land (Z.shiftr (buffer MDp !!! i) j) 0xFF))%string) out)
    EmptyString.

(** The conventional rendering of a digest: two lowercase hexadecimal
    digits per byte, high-order digit first. *)
Definition hex (digest : list Z) : string :=
  fold_right (λ b s, (printf_02x b ++ s)%string) EmptyString digest.

(** ** The adapter *)

(** [PPP_MD_CTX] is declared in crypto-priv.h; the adapter uses its [priv]
    field only, which is [NULL] or points to the [MD4_CTX]. *)
Record PPP_MD_CTX : Type := Build_PPP_MD_CTX { priv : option MD4_CTX }.

(** [calloc(1, sizeof(MD4_CTX))] when it succeeds: zeroed memory. *)
Definition calloc_MD4_CTX : MD4_CTX :=
  Build_MD4_CTX (replicate 4 0) (replicate 8 0) 0.

(** [ctx] may be [NULL]; [heap] tells whether [calloc] finds memory. *)
Definition md4_init (ctx : option PPP_MD_CTX) (heap : bool)
    : Z * option PPP_MD_CTX :=
  match ctx with
  | Some _ =>
      if heap then (1, Some (Build_PPP_MD_CTX (Some (MD4Init calloc_MD4_CTX))))
      else (0, ctx)
  | None => (0, ctx)
  end.

(** [while (mdlen > 512) { MD4Update(priv, data, 512); data += 64; mdlen -= 512; }]
    Every iteration takes 512 from [mdlen], so [fuel] iterations are enough
    as soon as [mdlen <= 512 * (fuel + 1)]. *)
Fixpoint md4_update_loop (fuel : nat) (XX : list Z) (MD : MD4_CTX) (data : ptr)
    (mdlen : Z) (out : list message) : option (MD4_CTX * ptr * Z * list message) :=
  if bool_decide (mdlen > 512) then
    match fuel with
    | O => None
    | S fuel =>
        '(MD, msgs) ← MD4Update XX MD data 512;
        md4_update_loop fuel XX MD (ptr_add data 64) (mdlen - 512) (out ++ msgs)
    end
  else Some (MD, data, mdlen, out).

(** [len] is a [size_t]; [int mdlen = len * 8] keeps the low 32 bits.
    This is the build for every system but NetBSD, where MD4Update comes
    from libc and counts bytes. *)
Definition md4_update (XX : list Z) (ctx : PPP_MD_CTX) (data : ptr) (len : Z)
    : option (Z * PPP_MD_CTX * list message) :=
  let mdlen := s32 (len * 8) in
  MD ← priv ctx;
  '(MD, data, mdlen, out) ← md4_update_loop (Z.to_nat mdlen) XX MD data mdlen [];
  '(MD, msgs) ← MD4Update XX MD data (u32 mdlen);
  Some (1, Build_PPP_MD_CTX (Some MD), out ++ msgs).

(** Returns the [int] result, the bytes stored through [out] and the
    context; [*len] is left alone. *)
Definition md4_final (XX : list Z) (ctx : PPP_MD_CTX)
    : option (Z * list Z * PPP_MD_CTX * list message) :=
  MD ← priv ctx;
  '(buf, MD, msgs) ← MD4Final XX MD;
  Some (1, buf, Build_PPP_MD_CTX (Some MD), msgs).

Definition md4_clean (ctx : PPP_MD_CTX) : PPP_MD_CTX :=
  match priv ctx with
  | Some _ => Build_PPP_MD_CTX None
  | None => ctx
  end.

(** ** Running the adapter *)

(** The bytes of a string. *)
Definition bytes_of (s : string) : list Z :=
  (λ c, Z.of_N (N_of_ascii c)) <$> list_ascii_of_string s.

(** A sequence of feed calls, each with its buffer and its length; the
    context reached and all that was printed. *)
Fixpoint feed (XX : list Z) (ctx : PPP_MD_CTX) (calls : list (ptr * Z))
    : option (PPP_MD_CTX * list message) :=
  match calls with
  | [] => Some (ctx, [])
  | (data, len) :: calls =>
      '(_, ctx, out) ← md4_update XX ctx data len;
      '(ctx, msgs) ← feed XX ctx calls;
      Some (ctx, out ++ msgs)
  end.

(** create, the feed calls, finish: the digest. *)
Definition digest_of (XX : list Z) (calls : list (ptr * Z)) : option (list Z) :=
  match md4_init (Some (Build_PPP_MD_CTX None)) true with
  | (1, Some ctx) =>
      '(ctx, _) ← feed XX ctx calls;
      '(_, buf, _, _) ← md4_final XX ctx;
      Some buf
  | _ => None
  end.

(** ** The block transform as the specification words it *)

Module Spec.

(** Word [k] of a block: four bytes, least-significant byte first. *)
Definition word (block : list Z) (k : nat) : Z :=
  (block !!! (4 * k)%nat
   + 2 ^ 8 * block !!! (4 * k + 1)%nat
   + 2 ^ 16 * block !!! (4 * k + 2)%nat
   + 2 ^ 24 * block !!! (4 * k + 3)%nat) `mod` 2 ^ 32.

Definition words (block : list Z) : list Z := word block <$> seq 0 16.

(** The complement of a 32-bit word: each of its 32 bits is flipped,
    which takes the word [X] to [2^32 - 1 - X]. *)
Definition complement (X : Z) : Z := 2 ^ 32 - 1 - X `mod` 2 ^ 32.

(** The rotation of a 32-bit word to the left by [s] bits: the word is
    multiplied by [2^s], and the [s] bits that leave at the top come
    back in at the bottom. *)
Definition rotate_left (X s : Z) : Z :=
  let w := X `mod` 2 ^ 32 in (w * 2 ^ s) `mod` 2 ^ 32 + w / 2 ^ (32 - s).

(** The three selection functions. *)
Definition select1 (X Y Z : BinNums.Z) : BinNums.Z :=
  Z.lor (Z.land X Y) (Z.land (complement X) Z).
Definition select2 (X Y Z : BinNums.Z) : BinNums.Z :=
  Z.lor (Z.lor (Z.land X Y) (Z.land X Z)) (Z.land Y Z).
Definition select3 (X Y Z : BinNums.Z) : BinNums.Z :=
  Z.lxor (Z.lxor X Y) Z.

(** Round constants.  The specification writes them in octal,
    [0o13240474631] and [0o15666365641]: digit by digit, the leading
    digit standing for 8^10. *)
Definition constant1 : Z := 0.
Definition constant2 : Z :=
  1 * 8 ^ 10 + 3 * 8 ^ 9 + 2 * 8 ^ 8 + 4 * 8 ^ 7 + 0 * 8 ^ 6 + 4 * 8 ^ 5
  + 7 * 8 ^ 4 + 4 * 8 ^ 3 + 6 * 8 ^ 2 + 3 * 8 ^ 1 + 1.
Definition constant3 : Z :=
  1 * 8 ^ 10 + 5 * 8 ^ 9 + 6 * 8 ^ 8 + 6 * 8 ^ 7 + 6 * 8 ^ 6 + 3 * 8 ^ 5
  + 6 * 8 ^ 4 + 5 * 8 ^ 3 + 6 * 8 ^ 2 + 4 * 8 ^ 1 + 1.

(** Rotate amounts, cycling through four values. *)
Definition shifts1 : list Z := [3; 7; 11; 19].
Definition shifts2 : list Z := [3; 5; 9; 13].
Definition shifts3 : list Z := [3; 9; 11; 15].

(** Message word orders. *)
Definition order1 : list nat := seq 0 16.
Definition order2 : list nat := [0;4;8;12;1;5;9;13;2;6;10;14;3;7;11;15]%nat.
Definition order3 : list nat := [0;8;4;12;2;10;6;14;1;9;5;13;3;11;7;15]%nat.

(** One step: combine, then rotate the working variables
    (A,B,C,D -> D,A,B,C). *)
Definition step (select : Z → Z → Z → Z) (K : Z) (X : list Z)
    (v : Z * Z * Z * Z) (t : nat) (k : nat) (s : Z) : Z * Z * Z * Z :=
  let '(A, B, C, D) := v in
  (D, rotate_left (A + select B C D + X !!! k + K) s, B, C).

(** A round: 16 steps; step [t] takes word [order[t]] and rotates by
    [shifts[t mod 4]]. *)
Definition round (select : Z → Z → Z → Z) (K : Z) (shifts : list Z)
    (order : list nat) (X : list Z) (v : Z * Z * Z * Z) : Z * Z * Z * Z :=
  for_loop 0 16 (λ t v,
    step select K X v t (order !!! t) (shifts !!! (t `mod` 4)%nat)) v.

(** The three rounds, in order, on the four working variables. *)
Definition rounds (X : list Z) (v : Z * Z * Z * Z) : Z * Z * Z * Z :=
  let v := round select1 constant1 shifts1 order1 X v in
  let v := round select2 constant2 shifts2 order2 X v in
  round select3 constant3 shifts3 order3 X v.

(** The working variables start from the state and are added to it at
    the end, modulo 2^32. *)
Definition transform (state : list Z) (block : list Z) : list Z :=
  let '(A, B, C, D) :=
    rounds (words block)
      (state !!! 0%nat, state !!! 1%nat, state !!! 2%nat, state !!! 3%nat) in
  [ (state !!! 0%nat + A) `mod` 2 ^ 32; (state !!! 1%nat + B) `mod` 2 ^ 32;
    (state !!! 2%nat + C) `mod` 2 ^ 32; (state !!! 3%nat + D) `mod` 2 ^ 32 ].

End Spec.

(** ** Reading the context *)

(** A list of bytes read as a little-endian integer. *)
Definition le_value (bytes : list Z) : Z :=
  fold_right (λ b v, b + 2 ^ 8 * v) 0 bytes.

(** The [n] low-order bytes of [v], least-significant byte first. *)
Fixpoint le_bytes (n : nat) (v : Z) : list Z :=
  match n with
  | O => []
  | S n => v `mod` 2 ^ 8 :: le_bytes n (v / 2 ^ 8)
  end.

Definition is_bytes (l : list Z) : Prop := Forall (λ b, 0 ≤ b < 2 ^ 8) l.

(** What the declaration of [MD4_CTX] says of its arrays. *)
Definition MD4_CTX_ok (MD : MD4_CTX) : Prop :=
  length (buffer MD) = 4%nat ∧ length (count MD) = 8%nat ∧ is_bytes (count MD).

(** The working variables of [MDblock] side by side with those of
    [Spec.rounds]. *)
Definition vars_of (v : Z * Z * Z * Z) : vars :=
  let '(a, b, c, d) := v in Vars a b c d.

(** ** The terminal block as the specification words it *)

(** The byte holding the boundary: of the 8 bits of [x], the [bit]
    high-order ones are kept, a single 1 bit follows, the bits below are
    cleared. *)
Definition boundary_byte (x bit : Z) : Z :=
  x `mod` 2 ^ 8 / 2 ^ (8 - bit) * 2 ^ (8 - bit) + 2 ^ (7 - bit).

(** The 64-byte scratch buffer of a feed of [bits] bits (fewer than 512):
    the whole bytes of the input, the boundary byte, zero fill. *)
Definition scratch (Xb : list Z) (bits : Z) : list Z :=
  let byte := Z.to_nat (bits / 8) in
  take byte Xb ++ [boundary_byte (Xb !!! byte) (bits `mod` 8)]
  ++ replicate (63 - byte) 0.

(** The context after a terminal feed: one block when the boundary byte
    has index 55 or less, two otherwise; [cnt] is the accumulated bit
    count. *)
Definition terminal (MD : MD4_CTX) (Xb : list Z) (bits : Z) (cnt : list Z) : MD4_CTX :=
  let MD := Build_MD4_CTX (buffer MD) cnt (done MD) in
  let XX := scratch Xb bits in
  let MD :=
    if bool_decide (bits / 8 ≤ 55) then MDblock MD (take 56 XX ++ cnt)
    else MDblock (MDblock MD XX) (replicate 56 0 ++ cnt) in
  Build_MD4_CTX (buffer MD) (count MD) 1.

(** ** The digest by direct computation *)

(** The message with its padding (a 1 bit, zero fill up to 56 modulo 64,
    the bit length on 8 bytes) is cut into 64-byte blocks, which are
    compressed in order from the initial state; the four state words are
    written least-significant byte first. *)
Module Reference.

Definition initial : list Z := [I0; I1; I2; I3].

Definition padding (len : nat) : list Z :=
  [0x80] ++ replicate ((55 + 64 - len `mod` 64) `mod` 64) 0
  ++ le_bytes 8 (8 * Z.of_nat len).

Fixpoint compress (blocks : nat) (state : list Z) (data : list Z) : list Z :=
  match blocks with
  | O => state
  | S blocks =>
      compress blocks (Spec.transform state (take 64 data)) (drop 64 data)
  end.

Definition state_bytes (state : list Z) : list Z :=
  state ≫= le_bytes 4.

Definition md4 (M : list Z) : list Z :=
  let P := M ++ padding (length M) in
  state_bytes (compress (length P / 64) initial P).

End Reference.

(** The context after the whole blocks [D] were fed and nothing else: the
    blocks compressed, their bits counted, not finished. *)
Definition absorbed (D : list Z) : MD4_CTX :=
  Build_MD4_CTX (Reference.compress (length D / 64) Reference.initial D)
                (le_bytes 8 (8 * Z.of_nat (length D))) 0.

(** One feed call for each chunk, each from a buffer of its own. *)
Definition calls_of (chunks : list (list Z)) : list (ptr * Z) :=
  (λ c, (Some c, Z.of_nat (length c))) <$> chunks.

(** A chunk made of whole blocks: a positive multiple of 64 bytes. *)
Definition whole (c : list Z) : Prop :=
  ∃ j : nat, length c = (64 * S j)%nat.

(** ** Sequences of internal feed calls *)

(** Calls of [MD4Update] on one context, in order; the context reached and
    all that was printed. *)
Fixpoint updates (XX : list Z) (MD : MD4_CTX) (calls : list (ptr * Z))
    : option (MD4_CTX * list message) :=
  match calls with
  | [] => Some (MD, [])
  | (X, n) :: calls =>
      '(MD, out) ← MD4Update XX MD X n;
      '(MD, msgs) ← updates XX MD calls;
      Some (MD, out ++ msgs)
  end.

(** Calls that are all accepted from an unfinished context on: at most 512
    bits each, from a buffer when there are bits to read, and fewer than
    512 bits in the last call only. *)
Fixpoint accepted (calls : list (ptr * Z)) : Prop :=
  match calls with
  | [] => True
  | (X, n) :: calls =>
      0 ≤ n ≤ 512 ∧ (n ≠ 0 → X ≠ NULL) ∧ (calls ≠ [] → n = 512) ∧ accepted calls
  end.

(** The number of bits passed to the calls. *)
Definition bits_fed (calls : list (ptr * Z)) : Z :=
  fold_right (λ call total, snd call + total) 0 calls.

(** The state words are 32-bit quantities. *)
Definition is_words (l : list Z) : Prop := Forall (λ w, 0 ≤ w < 2 ^ 32) l.

(** * Proofs *)

(** ** Loops over arrays *)

(** A loop that stores [F i] at index [off + i] overwrites one segment. *)
Lemma fold_left_insert (F : nat → Z) (off k lo : nat) (l : list Z) :
  (off + lo + k ≤ length l)%nat →
  fold_left (λ l i, <[(off + i)%nat := F i]> l) (seq lo k) l
  = take (off + lo) l ++ (F <$> seq lo k) ++ drop (off + lo + k) l.
Proof.
  revert lo l. induction k as [|k IH]; intros lo l Hlen.
  - cbn. by rewrite Nat.add_0_r, take_drop.
  - cbn [seq fold_left fmap list_fmap].
    rewrite IH by (rewrite length_insert; lia).
    rewrite drop_insert_lt by lia.
    replace (off + lo + Datatypes.S k)%nat with (off + Datatypes.S lo + k)%nat by lia.
    replace (off + Datatypes.S lo)%nat with (Datatypes.S (off + lo)) by lia.
    rewrite take_insert_lt by lia.
    destruct (lookup_lt_is_Some_2 l (off + lo)) as [x Hx]; [lia|].
    rewrite (take_S_r _ _ _ Hx).
    rewrite insert_app_r_alt by (rewrite length_take; lia).
    rewrite length_take, Nat.min_l by lia.
    replace (off + lo - (off + lo))%nat with 0%nat by lia.
    cbn. by rewrite <- app_assoc.
Qed.

Lemma for_loop_insert (F : nat → Z) (off lo hi : nat) (l : list Z) :
  (lo ≤ hi)%nat → (off + hi ≤ length l)%nat →
  for_loop lo hi (λ i l, <[(off + i)%nat := F i]> l) l
  = take (off + lo) l ++ (F <$> seq lo (hi - lo)) ++ drop (off + hi) l.
Proof.
  intros Hlo Hhi. unfold for_loop. rewrite fold_left_insert by lia.
  by replace (off + lo + (hi - lo))%nat with (off + hi)%nat by lia.
Qed.

Lemma fmap_const_seq (x : Z) (lo k : nat) : (λ _, x) <$> seq lo k = replicate k x.
Proof. revert lo. induction k as [|k IH]; intros lo; cbn; [done|]. by rewrite IH. Qed.

Lemma fmap_lookup_total_seq (l : list Z) (k : nat) :
  (k ≤ length l)%nat → (λ i, l !!! i) <$> seq 0 k = take k l.
Proof.
  intros Hk. apply list_eq. intros i.
  rewrite list_lookup_fmap. destruct (decide (i < k)%nat) as [Hi|Hi].
  - rewrite lookup_seq_lt by done. rewrite lookup_take_lt by done. cbn.
    destruct (lookup_lt_is_Some_2 l i) as [x Hx]; [lia|].
    by rewrite (list_lookup_total_correct _ _ _ Hx).
  - rewrite lookup_seq_ge by lia. rewrite lookup_take_ge by lia. done.
Qed.

(** ** The bit count *)

Lemma le_value_bound (p : list Z) :
  is_bytes p → 0 ≤ le_value p < 2 ^ (8 * Z.of_nat (length p)).
Proof.
  induction 1 as [|b p Hb _ IH]; [cbn; lia|].
  cbn [le_value fold_right length]. fold (le_value p).
  replace (8 * Z.of_nat (Datatypes.S (length p))) with (8 + 8 * Z.of_nat (length p)) by lia.
  rewrite Z.pow_add_r by lia. lia.
Qed.

Lemma count_loop_0 (p : list Z) : count_loop 0 p = Some p.
Proof. by destruct p. Qed.

(** Adding [tmp] to the counter adds it to its value, as long as the sum
    fits in the array. *)
Lemma count_loop_spec (p : list Z) (tmp : Z) :
  is_bytes p → 0 ≤ tmp ≤ 2 ^ 32 - 2 ^ 8 →
  le_value p + tmp < 2 ^ (8 * Z.of_nat (length p)) →
  ∃ p', count_loop tmp p = Some p' ∧ length p' = length p ∧ is_bytes p'
        ∧ le_value p' = le_value p + tmp.
Proof.
  intros Hp. revert tmp. induction Hp as [|b p Hb Hp IH]; intros tmp Htmp Hfit.
  - cbn in Hfit. assert (tmp = 0) as -> by lia. exists [].
    split_and!; [done | done | constructor | cbn; lia].
  - cbn [count_loop]. destruct (Z.eqb_spec tmp 0) as [->|Hne].
    + exists (b :: p). rewrite Z.add_0_r.
      split_and!; [done | done | by constructor | done].
    + cbn [le_value fold_right length] in Hfit. fold (le_value p) in Hfit.
      replace (8 * Z.of_nat (Datatypes.S (length p)))
        with (8 + 8 * Z.of_nat (length p)) in Hfit by lia.
      rewrite Z.pow_add_r in Hfit by lia.
      assert (Hu : u32 (tmp + b) = tmp + b) by (unfold u32; apply Z.mod_small; lia).
      rewrite Hu, Z.shiftr_div_pow2 by lia.
      pose proof (Z.div_mod (tmp + b) (2 ^ 8) ltac:(lia)) as Hdm.
      pose proof (Z.mod_pos_bound (tmp + b) (2 ^ 8) ltac:(lia)) as Hmod.
      pose proof (le_value_bound p Hp) as Hbound.
      destruct (IH ((tmp + b) / 2 ^ 8)) as (p' & Hp' & Hlen & Hbytes & Hval).
      * split; [apply Z.div_pos; lia|]. apply Z.div_le_upper_bound; lia.
      * nia.
      * exists (u8 (tmp + b) :: p'). rewrite Hp'.
        cbn [fmap option_fmap option_map length le_value fold_right].
        fold (le_value p') (le_value p).
        split_and!; [done | by rewrite Hlen | by constructor | unfold u8; lia].
Qed.

(** A list of [n] bytes is determined by its value. *)
Lemma le_bytes_le_value (p : list Z) :
  is_bytes p → le_bytes (length p) (le_value p) = p.
Proof.
  induction 1 as [|b p Hb Hp IH]; [done|].
  cbn [length le_bytes le_value fold_right]. fold (le_value p).
  rewrite Z.mul_comm, Z.mod_add, Z.div_add, Z.mod_small, Z.div_small by lia.
  by rewrite Z.add_0_l, IH.
Qed.

(** ** The boundary byte *)

Lemma u8_land_ones (y : Z) : u8 y = Z.land y (Z.ones 8).
Proof. unfold u8. by rewrite Z.land_ones by lia. Qed.

(** Only the low 8 bits of the byte read matter. *)
Lemma boundary_low_bits (x m k : Z) :
  0 ≤ m < 2 ^ 8 →
  u8 (Z.land (Z.lor x m) k) = u8 (Z.land (Z.lor (x `mod` 2 ^ 8) m) k).
Proof.
  intros Hm. rewrite !u8_land_ones, <- !Z.land_ones by lia.
  rewrite <- !Z.land_assoc, !(Z.land_comm k), !Z.land_assoc.
  f_equal. rewrite !Z.land_lor_distr_l. f_equal.
  by rewrite <- Z.land_assoc, Z.land_diag.
Qed.

Lemma boundary_table :
  Forall (λ bit, Forall (λ x,
    u8 (Z.land (Z.lor x (Z.shiftl 1 (7 - bit))) (not32 (Z.shiftl 1 (7 - bit) - 1)))
    = x / 2 ^ (8 - bit) * 2 ^ (8 - bit) + 2 ^ (7 - bit)) (seqZ 0 256)) (seqZ 0 8).
Proof. apply (bool_decide_unpack _). vm_compute. exact I. Qed.

(** What the masking of [MD4Update] leaves in the boundary byte. *)
Lemma boundary_byte_code (x bit : Z) :
  0 ≤ bit < 8 →
  u8 (Z.land (Z.lor x (Z.shiftl 1 (7 - bit))) (not32 (Z.shiftl 1 (7 - bit) - 1)))
  = boundary_byte x bit.
Proof.
  intros Hbit. unfold boundary_byte.
  assert (Hm : 0 ≤ Z.shiftl 1 (7 - bit) < 2 ^ 8).
  { rewrite Z.shiftl_1_l. split; [apply Z.pow_nonneg; lia|].
    apply Z.pow_lt_mono_r; lia. }
  rewrite boundary_low_bits by done.
  pose proof boundary_table as Ht.
  rewrite Forall_forall in Ht. specialize (Ht bit).
  rewrite Forall_forall in Ht. apply Ht.
  - apply list_elem_of_In, elem_of_seqZ. lia.
  - apply list_elem_of_In, elem_of_seqZ. pose proof (Z.mod_pos_bound x (2 ^ 8)). lia.
Qed.

Lemma boundary_byte_0 (x : Z) : boundary_byte x 0 = 0x80.
Proof.
  unfold boundary_byte. rewrite Z.div_small; [done|].
  apply Z.mod_pos_bound. lia.
Qed.

(** ** The scratch buffer *)

Lemma middle_lookup_total (l1 l2 : list Z) (x : Z) (k : nat) :
  length l1 = k → (l1 ++ x :: l2) !!! k = x.
Proof. intros <-. apply list_lookup_total_middle. done. Qed.

Lemma middle_insert (l1 l2 : list Z) (x y : Z) (k : nat) :
  length l1 = k → <[k := y]> (l1 ++ x :: l2) = l1 ++ y :: l2.
Proof.
  intros <-. rewrite insert_app_r_alt by lia. by rewrite Nat.sub_diag.
Qed.

Lemma middle_take (l1 l2 : list Z) (x : Z) (k : nat) :
  length l1 = k → take (Datatypes.S k) (l1 ++ x :: l2) = l1 ++ [x].
Proof.
  intros <-. rewrite take_app_ge by lia.
  replace (Datatypes.S (length l1) - length l1)%nat with 1%nat by lia.
  by rewrite firstn_cons, take_0.
Qed.

(** Zero fill above the boundary byte, then the mask: the scratch buffer
    keeps what lies below the boundary and nothing else. *)
Lemma scratch_fill (l1 l2 : list Z) (x : Z) (byte : nat) (bit : Z) :
  length l1 = byte → length (l1 ++ x :: l2) = 64%nat → 0 ≤ bit < 8 →
  let XX := for_loop (byte + 1) 64 (λ i XX, <[i := 0]> XX) (l1 ++ x :: l2) in
  let mask := Z.shiftl 1 (7 - bit) in
  <[byte := u8 (Z.land (Z.lor (XX !!! byte) mask) (not32 (mask - 1)))]> XX
  = l1 ++ [boundary_byte x bit] ++ replicate (63 - byte) 0.
Proof.
  intros Hl1 Hlen Hbit XX mask.
  assert (Hbyte : (byte < 64)%nat) by (rewrite length_app in Hlen; cbn in Hlen; lia).
  assert (HXX : XX = l1 ++ x :: replicate (63 - byte) 0).
  { subst XX.
    rewrite (for_loop_insert (λ _, 0) 0 (byte + 1) 64) by lia.
    cbn [Nat.add]. rewrite fmap_const_seq, drop_ge, app_nil_r by lia.
    replace (byte + 1)%nat with (Datatypes.S byte) by lia.
    rewrite middle_take by done. rewrite <- app_assoc. cbn.
    by replace (63 - byte)%nat with (64 - Datatypes.S byte)%nat by lia. }
  rewrite HXX, middle_lookup_total, middle_insert by done.
  subst mask. by rewrite boundary_byte_code.
Qed.

(** The copy loop puts the bytes of the input below and at the boundary. *)
Lemma scratch_copy (XX Xb : list Z) (byte : nat) :
  length XX = 64%nat → (byte < 64)%nat → (byte ≤ length Xb)%nat →
  for_loop 0 (byte + 1) (λ i XX, <[i := Xb !!! i]> XX) XX
  = take byte Xb ++ Xb !!! byte :: drop (byte + 1) XX.
Proof.
  intros HXX Hbyte HXb.
  rewrite (for_loop_insert (λ i, Xb !!! i) 0 0 (byte + 1)) by lia.
  cbn [Nat.add take]. rewrite Nat.sub_0_r.
  replace (byte + 1)%nat with (Datatypes.S byte) by lia.
  rewrite seq_S, fmap_app, fmap_lookup_total_seq by done.
  cbn. by rewrite <- app_assoc.
Qed.

(** The bit count goes to offset 56. *)
Lemma scratch_count (XX cnt : list Z) :
  length XX = 64%nat → length cnt = 8%nat →
  for_loop 0 8 (λ i XX, <[(56 + i)%nat := cnt !!! i]> XX) XX = take 56 XX ++ cnt.
Proof.
  intros HXX Hcnt.
  rewrite (for_loop_insert (λ i, cnt !!! i) 56 0 8) by lia.
  rewrite Nat.add_0_r, Nat.sub_0_r, drop_ge, app_nil_r by lia.
  rewrite fmap_lookup_total_seq by lia. by rewrite (take_ge cnt) by lia.
Qed.

Lemma scratch_zero (XX : list Z) :
  length XX = 64%nat →
  for_loop 0 56 (λ i XX, <[i := 0]> XX) XX = replicate 56 0 ++ drop 56 XX.
Proof.
  intros HXX. rewrite (for_loop_insert (λ _, 0) 0 0 56) by lia.
  cbn [Nat.add take]. by rewrite fmap_const_seq.
Qed.

Lemma length_scratch (Xb : list Z) (bits : Z) :
  0 ≤ bits < 512 → (Z.to_nat (bits / 8) ≤ length Xb)%nat →
  length (scratch Xb bits) = 64%nat.
Proof.
  intros Hbits HXb. unfold scratch.
  assert (Z.to_nat (bits / 8) < 64)%nat.
  { apply Nat2Z.inj_lt. rewrite Z2Nat.id by (apply Z.div_pos; lia).
    apply Z.div_lt_upper_bound; lia. }
  rewrite !length_app, length_take, length_replicate. cbn. lia.
Qed.

(** ** The cases of MD4Update *)

Lemma MD4Update_courtesy (XX : list Z) (MD : MD4_CTX) (X : ptr) :
  done MD ≠ 0 → MD4Update XX MD X 0 = Some (MD, []).
Proof.
  intros Hdone. unfold MD4Update.
  by rewrite bool_decide_eq_true_2, (bool_decide_eq_false_2 (done MD = 0)).
Qed.

Lemma MD4Update_already_done (XX : list Z) (MD : MD4_CTX) (X : ptr) (n : Z) :
  done MD ≠ 0 → n ≠ 0 → MD4Update XX MD X n = Some (MD, [Error_already_done]).
Proof.
  intros Hdone Hn. unfold MD4Update.
  by rewrite (bool_decide_eq_false_2 (n = 0)), (bool_decide_eq_false_2 (done MD = 0)).
Qed.

Lemma MD4Update_full (XX : list Z) (MD : MD4_CTX) (Xb cnt : list Z) :
  done MD = 0 → count_loop 512 (count MD) = Some cnt →
  MD4Update XX MD (Some Xb) 512
  = Some (MDblock (Build_MD4_CTX (buffer MD) cnt 0) Xb, []).
Proof.
  intros Hdone Hcnt. unfold MD4Update.
  rewrite (bool_decide_eq_false_2 (512 = 0)) by lia.
  rewrite (bool_decide_eq_true_2 (done MD = 0)) by done.
  cbn [andb negb]. rewrite Hcnt. cbn [mbind option_bind].
  rewrite (bool_decide_eq_true_2 (512 = 512)) by done.
  by rewrite Hdone.
Qed.

Lemma MD4Update_illegal (XX : list Z) (MD : MD4_CTX) (X : ptr) (n : Z) (cnt : list Z) :
  done MD = 0 → n > 512 → count_loop n (count MD) = Some cnt →
  MD4Update XX MD X n
  = Some (Build_MD4_CTX (buffer MD) cnt 0, [Error_illegal_count n]).
Proof.
  intros Hdone Hn Hcnt. unfold MD4Update.
  rewrite (bool_decide_eq_false_2 (n = 0)) by lia.
  rewrite (bool_decide_eq_true_2 (done MD = 0)) by done.
  cbn [andb negb]. rewrite Hcnt. cbn [mbind option_bind].
  rewrite (bool_decide_eq_false_2 (n = 512)) by lia.
  rewrite (bool_decide_eq_true_2 (n > 512)) by done.
  by rewrite Hdone.
Qed.

Lemma byte_index (n : Z) :
  0 ≤ n < 512 →
  Z.shiftr n 3 = n / 8 ∧ Z.land n 7 = n `mod` 8 ∧ 0 ≤ n `mod` 8 < 8
  ∧ (Z.to_nat (n / 8) < 64)%nat.
Proof.
  intros Hn. split_and!.
  - by rewrite Z.shiftr_div_pow2.
  - change 7 with (Z.ones 3). by rewrite Z.land_ones.
  - apply Z.mod_pos_bound. lia.
  - apply Z.mod_pos_bound. lia.
  - apply Nat2Z.inj_lt. rewrite Z2Nat.id by (apply Z.div_pos; lia).
    apply Z.div_lt_upper_bound; lia.
Qed.

(** The end of a partial feed, once the scratch buffer is built. *)
Lemma MD4Update_finish (MD : MD4_CTX) (Xb XX cnt : list Z) (n : Z) :
  0 ≤ n < 512 → (Z.to_nat (n / 8) ≤ length Xb)%nat → length cnt = 8%nat →
  XX = scratch Xb n →
  (if bool_decide (Z.to_nat (n / 8) ≤ 55)%nat then
     let XX := for_loop 0 8 (λ i XX, <[(56 + i)%nat := cnt !!! i]> XX) XX in
     let MDp := MDblock (Build_MD4_CTX (buffer MD) cnt (done MD)) XX in
     Some (Build_MD4_CTX (buffer MDp) (count MDp) 1, @nil message)
   else
     let MDp := MDblock (Build_MD4_CTX (buffer MD) cnt (done MD)) XX in
     let XX := for_loop 0 56 (λ i XX, <[i := 0]> XX) XX in
     let XX := for_loop 0 8 (λ i XX, <[(56 + i)%nat := count MDp !!! i]> XX) XX in
     let MDp := MDblock MDp XX in
     Some (Build_MD4_CTX (buffer MDp) (count MDp) 1, []))
  = Some (terminal MD Xb n cnt, []).
Proof.
  intros Hn HXb Hcnt ->. destruct (byte_index n Hn) as (_ & _ & _ & Hbyte).
  pose proof (length_scratch Xb n Hn HXb) as Hlen.
  unfold terminal. cbv zeta.
  assert (Hcount : ∀ M B, count (MDblock M B) = count M) by done.
  assert (Hdiv : 0 ≤ n / 8) by (apply Z.div_pos; lia).
  case_bool_decide as H55.
  - rewrite bool_decide_eq_true_2 by lia.
    by rewrite scratch_count.
  - rewrite bool_decide_eq_false_2 by lia.
    rewrite Hcount. cbn [count].
    rewrite scratch_zero by done.
    rewrite scratch_count;
      [| by rewrite length_app, length_replicate, length_drop, Hlen | done].
    by rewrite take_app_length' by (by rewrite length_replicate).
Qed.

(** A feed of fewer than 512 bits on an unfinished context. *)
Lemma MD4Update_partial (XX : list Z) (MD : MD4_CTX) (Xb cnt : list Z) (n : Z) :
  done MD = 0 → 0 < n < 512 → length XX = 64%nat →
  (Z.to_nat (n / 8) ≤ length Xb)%nat →
  count_loop n (count MD) = Some cnt → length cnt = 8%nat →
  MD4Update XX MD (Some Xb) n = Some (terminal MD Xb n cnt, []).
Proof.
  intros Hdone Hn HXX HXb Hcnt Hlen. unfold MD4Update.
  destruct (byte_index n ltac:(lia)) as (Hshift & Hland & Hbit & Hbyte).
  rewrite (bool_decide_eq_false_2 (n = 0)) by lia.
  rewrite (bool_decide_eq_true_2 (done MD = 0)) by done.
  cbn [andb negb]. rewrite Hcnt. cbn [mbind option_bind].
  rewrite (bool_decide_eq_false_2 (n = 512)) by lia.
  rewrite (bool_decide_eq_false_2 (n > 512)) by lia.
  rewrite Hshift, Hland. rewrite scratch_copy by done.
  pose proof (scratch_fill (take (Z.to_nat (n / 8)) Xb)
    (drop (Z.to_nat (n / 8) + 1) XX) (Xb !!! Z.to_nat (n / 8))
    (Z.to_nat (n / 8)) (n `mod` 8)) as Hfill.
  cbv zeta in Hfill. rewrite Hfill; clear Hfill.
  - apply (MD4Update_finish MD Xb _ cnt n); [lia | done | done | reflexivity].
  - rewrite length_take. lia.
  - rewrite length_app, length_take. cbn. rewrite length_drop. lia.
  - done.
Qed.

(** A feed of no bits on an unfinished context: the input is not read. *)
Lemma MD4Update_empty (XX : list Z) (MD : MD4_CTX) (X : ptr) (Xb : list Z) :
  done MD = 0 → length XX = 64%nat → length (count MD) = 8%nat →
  MD4Update XX MD X 0 = Some (terminal MD Xb 0 (count MD), []).
Proof.
  intros Hdone HXX Hlen. unfold MD4Update.
  rewrite (bool_decide_eq_true_2 (done MD = 0)) by done.
  rewrite andb_false_r. cbn [negb]. rewrite count_loop_0. cbn [mbind option_bind].
  rewrite (bool_decide_eq_false_2 (0 = 512)) by lia.
  rewrite (bool_decide_eq_false_2 (0 > 512)) by lia.
  rewrite (bool_decide_eq_true_2 (0 = 0)) by done. cbn [mbind option_bind].
  change (Z.to_nat (Z.shiftr 0 3)) with 0%nat. change (Z.land 0 7) with 0.
  destruct XX as [|x XX]; [done|].
  pose proof (scratch_fill [] XX x 0 0) as Hfill.
  cbv zeta in Hfill. cbn [app] in Hfill.
  rewrite Hfill by (done || lia); clear Hfill.
  apply (MD4Update_finish MD Xb (boundary_byte x 0 :: replicate (63 - 0) 0)
           (count MD) 0);
    [lia | change (Z.to_nat (0 / 8)) with 0%nat; lia | done |].
  unfold scratch. change (Z.to_nat (0 / 8)) with 0%nat. change (0 `mod` 8) with 0.
  by rewrite !boundary_byte_0.
Qed.

(** ** The block transform *)

Lemma MDblock_X_words Xb : MDblock_X Xb = Spec.words Xb.
Proof.
  unfold MDblock_X, Spec.words, Spec.word, u32, for_loop.
  cbn [seq fold_left Nat.sub replicate fmap list_fmap insert list_insert Nat.mul Nat.add].
  rewrite !lookup_total_drop, !Z.shiftl_mul_pow2 by lia.
  cbn [Nat.add].
  repeat (apply (f_equal2 cons); [f_equal; lia |]).
  reflexivity.
Qed.

(** The macro [~X] on an [unsigned int] is the complement of the
    specification. *)
Lemma not32_complement (X : Z) : not32 X = Spec.complement X.
Proof.
  unfold not32, u32, Spec.complement.
  pose proof (Z.add_lnot_diag X) as Hnot.
  pose proof (Z.div_mod X (2 ^ 32) ltac:(lia)) as HX.
  pose proof (Z.mod_pos_bound X (2 ^ 32) ltac:(lia)) as Hr.
  symmetry. apply (Z.mod_unique _ _ (- (X / 2 ^ 32) - 1)); lia.
Qed.

(** The two halves of [rot] have no bit in common. *)
Lemma rot_halves (X s : Z) :
  0 < s < 32 →
  Z.land (((X `mod` 2 ^ 32) * 2 ^ s) `mod` 2 ^ 32) ((X `mod` 2 ^ 32) / 2 ^ (32 - s)) = 0.
Proof.
  intros Hs. apply Z.bits_inj'. intros i Hi.
  rewrite Z.land_spec, Z.bits_0.
  destruct (decide (i < s)) as [Hlow|Hhigh].
  - rewrite Z.mod_pow2_bits_low by lia.
    by rewrite Z.mul_pow2_bits_low by lia.
  - rewrite Z.div_pow2_bits by lia.
    rewrite (Z.mod_pow2_bits_high X 32 (i + (32 - s))) by lia.
    apply andb_false_r.
Qed.

(** The macro [rot] is the left rotation of the specification, for the
    shifts a rotation has. *)
Lemma rot_rotate_left (X s : Z) :
  0 < s < 32 → rot X s = Spec.rotate_left X s.
Proof.
  intros Hs. unfold rot, Spec.rotate_left, u32. cbv zeta.
  rewrite Z.shiftl_mul_pow2, Z.shiftr_div_pow2 by lia.
  pose proof (Z.add_lor_land (((X `mod` 2 ^ 32) * 2 ^ s) `mod` 2 ^ 32)
                ((X `mod` 2 ^ 32) / 2 ^ (32 - s))) as Hadd.
  rewrite rot_halves in Hadd by done. lia.
Qed.

Section steps.
Variables (X : list Z) (a b c d : Z) (t i : nat) (s : Z).
Hypothesis Hs : 0 < s < 32.

Lemma step_select1 :
  Spec.step Spec.select1 Spec.constant1 X (a, b, c, d) t i s
  = (d, rot (a + f b c d + X !!! i) s, b, c).
Proof.
  unfold Spec.step, Spec.constant1, Spec.select1, f.
  by rewrite Z.add_0_r, rot_rotate_left, not32_complement.
Qed.

Lemma step_select2 :
  Spec.step Spec.select2 Spec.constant2 X (a, b, c, d) t i s
  = (d, rot (a + g b c d + X !!! i + C2) s, b, c).
Proof. unfold Spec.step. by rewrite rot_rotate_left. Qed.

Lemma step_select3 :
  Spec.step Spec.select3 Spec.constant3 X (a, b, c, d) t i s
  = (d, rot (a + h b c d + X !!! i + C3) s, b, c).
Proof. unfold Spec.step. by rewrite rot_rotate_left. Qed.

Lemma ff_A : ff X Reg.A Reg.B Reg.C Reg.D i s (Vars a b c d)
             = Vars (rot (a + f b c d + X !!! i) s) b c d.
Proof. reflexivity. Qed.
Lemma ff_D : ff X Reg.D Reg.A Reg.B Reg.C i s (Vars a b c d)
             = Vars a b c (rot (d + f a b c + X !!! i) s).
Proof. reflexivity. Qed.
Lemma ff_C : ff X Reg.C Reg.D Reg.A Reg.B i s (Vars a b c d)
             = Vars a b (rot (c + f d a b + X !!! i) s) d.
Proof. reflexivity. Qed.
Lemma ff_B : ff X Reg.B Reg.C Reg.D Reg.A i s (Vars a b c d)
             = Vars a (rot (b + f c d a + X !!! i) s) c d.
Proof. reflexivity. Qed.

Lemma gg_A : gg X Reg.A Reg.B Reg.C Reg.D i s (Vars a b c d)
             = Vars (rot (a + g b c d + X !!! i + C2) s) b c d.
Proof. reflexivity. Qed.
Lemma gg_D : gg X Reg.D Reg.A Reg.B Reg.C i s (Vars a b c d)
             = Vars a b c (rot (d + g a b c + X !!! i + C2) s).
Proof. reflexivity. Qed.
Lemma gg_C : gg X Reg.C Reg.D Reg.A Reg.B i s (Vars a b c d)
             = Vars a b (rot (c + g d a b + X !!! i + C2) s) d.
Proof. reflexivity. Qed.
Lemma gg_B : gg X Reg.B Reg.C Reg.D Reg.A i s (Vars a b c d)
             = Vars a (rot (b + g c d a + X !!! i + C2) s) c d.
Proof. reflexivity. Qed.

Lemma hh_A : hh X Reg.A Reg.B Reg.C Reg.D i s (Vars a b c d)
             = Vars (rot (a + h b c d + X !!! i + C3) s) b c d.
Proof. reflexivity. Qed.
Lemma hh_D : hh X Reg.D Reg.A Reg.B Reg.C i s (Vars a b c d)
             = Vars a b c (rot (d + h a b c + X !!! i + C3) s).
Proof. reflexivity. Qed.
Lemma hh_C : hh X Reg.C Reg.D Reg.A Reg.B i s (Vars a b c d)
             = Vars a b (rot (c + h d a b + X !!! i + C3) s) d.
Proof. reflexivity. Qed.
Lemma hh_B : hh X Reg.B Reg.C Reg.D Reg.A i s (Vars a b c d)
             = Vars a (rot (b + h c d a + X !!! i + C3) s) c d.
Proof. reflexivity. Qed.
End steps.

(** Evaluate the look-ups in the order and shift tables. *)
Ltac eval_tables :=
  repeat match goal with
  | |- context [@lookup_total nat ?A (list ?A) ?i ?t ?l] =>
      lazymatch l with
      | Spec.order1 => idtac | Spec.order2 => idtac | Spec.order3 => idtac
      | Spec.shifts1 => idtac | Spec.shifts2 => idtac | Spec.shifts3 => idtac
      end;
      let v := eval vm_compute in (@lookup_total nat A (list A) i t l) in
      change (@lookup_total nat A (list A) i t l) with v
  end.

(** One macro call against one step of the specification; the value they
    both compute is then forgotten, to keep the goal small. *)
Ltac lockstep code spec :=
  rewrite code; rewrite spec by lia;
  match goal with |- context [rot ?e ?s] => generalize (rot e s); intro end.

Ltac four_steps opA opD opC opB spec :=
  lockstep opA spec; lockstep opD spec; lockstep opC spec; lockstep opB spec.

Lemma MDblock_transform (MDp : MD4_CTX) (Xb : list Z) :
  length (buffer MDp) = 4%nat →
  MDblock MDp Xb = Build_MD4_CTX (Spec.transform (buffer MDp) Xb) (count MDp) (done MDp).
Proof.
  intros Hlen.
  destruct (buffer MDp) as [|w0 [|w1 [|w2 [|w3 [|]]]]] eqn:Hb; try discriminate.
  cbv beta zeta delta [MDblock Spec.transform]. rewrite Hb, MDblock_X_words.
  generalize (Spec.words Xb); intros X.
  cbn [lookup_total list_lookup_total].
  match goal with
  | |- context [var_A ?V] =>
      assert (HV : V = vars_of (Spec.rounds X (w0, w1, w2, w3)))
  end.
  { cbv beta zeta delta [Spec.rounds Spec.round for_loop
                           fs1 fs2 fs3 fs4 gs1 gs2 gs3 gs4 hs1 hs2 hs3 hs4].
    cbn [seq Nat.sub fold_left]. eval_tables.
    do 4 (four_steps ff_A ff_D ff_C ff_B step_select1).
    do 4 (four_steps gg_A gg_D gg_C gg_B step_select2).
    do 4 (four_steps hh_A hh_D hh_C hh_B step_select3).
    reflexivity. }
  rewrite HV. clear HV.
  destruct (Spec.rounds X (w0, w1, w2, w3)) as [[[a b] c] d].
  reflexivity.
Qed.

#[global] Arguments MDblock : simpl never.
#[global] Arguments Spec.transform : simpl never.
#[global] Arguments Spec.rounds : simpl never.

Lemma length_transform (state block : list Z) :
  length (Spec.transform state block) = 4%nat.
Proof. unfold Spec.transform. by destruct (Spec.rounds _ _) as [[[a b] c] d]. Qed.

(** The words it returns are 32-bit quantities. *)
Lemma is_words_transform (state block : list Z) :
  is_words (Spec.transform state block).
Proof.
  unfold Spec.transform.
  destruct (Spec.rounds _ _) as [[[A B] C] D].
  unfold is_words.
  do 4 (apply Forall_cons_2; [apply Z.mod_pos_bound; lia|]). apply Forall_nil_2.
Qed.

(** Only the first 64 bytes of a block are read. *)
Lemma words_take (block : list Z) (n : nat) :
  (64 ≤ n)%nat → Spec.words (take n block) = Spec.words block.
Proof.
  intros Hn. unfold Spec.words. apply list_fmap_ext. intros i k Hk%lookup_seq.
  unfold Spec.word. rewrite !lookup_total_take_lt by lia. done.
Qed.

Lemma transform_take (state block : list Z) (n : nat) :
  (64 ≤ n)%nat → Spec.transform state (take n block) = Spec.transform state block.
Proof.
  intros Hn. cbv beta delta [Spec.transform]. by rewrite words_take.
Qed.

Lemma count_MDblock (MDp : MD4_CTX) (Xb : list Z) : count (MDblock MDp Xb) = count MDp.
Proof. reflexivity. Qed.

Lemma done_MDblock (MDp : MD4_CTX) (Xb : list Z) : done (MDblock MDp Xb) = done MDp.
Proof. reflexivity. Qed.

(** From here on the block transform is a black box. *)
#[global] Opaque MDblock Spec.transform.

(** ** Compressing several blocks *)

Lemma length_compress (k : nat) (state data : list Z) :
  length state = 4%nat → length (Reference.compress k state data) = 4%nat.
Proof.
  revert state data. induction k as [|k IH]; intros state data Hlen; [done|].
  cbn [Reference.compress]. apply IH, length_transform.
Qed.

Lemma compress_app (a b : nat) (state D1 D2 : list Z) :
  length D1 = (64 * a)%nat →
  Reference.compress (a + b) state (D1 ++ D2)
  = Reference.compress b (Reference.compress a state D1) D2.
Proof.
  revert state D1. induction a as [|a IH]; intros state D1 Hlen.
  - by destruct D1.
  - cbn [Nat.add Reference.compress].
    rewrite take_app_le, drop_app_le by lia.
    apply IH. rewrite length_drop. lia.
Qed.

Lemma compress_S_r (a : nat) (state D B : list Z) :
  length D = (64 * a)%nat →
  Reference.compress (Datatypes.S a) state (D ++ B)
  = Spec.transform (Reference.compress a state D) B.
Proof.
  intros Hlen. replace (Datatypes.S a) with (a + 1)%nat by lia.
  rewrite compress_app by done. cbn [Reference.compress].
  apply transform_take. lia.
Qed.

(** ** Contexts reached by whole blocks *)

Lemma length_le_bytes (n : nat) (v : Z) : length (le_bytes n v) = n.
Proof. revert v. induction n as [|n IH]; intros v; cbn; [done|]. by rewrite IH. Qed.

Lemma is_bytes_le_bytes (n : nat) (v : Z) : is_bytes (le_bytes n v).
Proof.
  revert v. induction n as [|n IH]; intros v; cbn; constructor; [|apply IH].
  apply Z.mod_pos_bound. lia.
Qed.

Lemma le_value_le_bytes (n : nat) (v : Z) :
  0 ≤ v < 2 ^ (8 * Z.of_nat n) → le_value (le_bytes n v) = v.
Proof.
  revert v. induction n as [|n IH]; intros v Hv.
  - cbn in *. lia.
  - cbn [le_bytes le_value fold_right]. fold (le_value (le_bytes n (v / 2 ^ 8))).
    replace (8 * Z.of_nat (Datatypes.S n)) with (8 + 8 * Z.of_nat n) in Hv by lia.
    rewrite Z.pow_add_r in Hv by lia.
    rewrite IH.
    + pose proof (Z.div_mod v (2 ^ 8) ltac:(lia)). lia.
    + split; [apply Z.div_pos; lia|]. apply Z.div_lt_upper_bound; lia.
Qed.

(** Adding [n] bits to the counter of a context that holds [v]. *)
Lemma count_loop_le_bytes (v n : Z) :
  0 ≤ v → 0 ≤ n ≤ 512 → v + n < 2 ^ 64 →
  count_loop n (le_bytes 8 v) = Some (le_bytes 8 (v + n)).
Proof.
  intros Hv Hn Hfit.
  assert (E : 2 ^ (8 * Z.of_nat 8) = 2 ^ 64) by reflexivity.
  assert (Hval0 : le_value (le_bytes 8 v) = v)
    by (apply le_value_le_bytes; rewrite E; lia).
  destruct (count_loop_spec (le_bytes 8 v) n) as (p & Hp & Hlen & Hbytes & Hval).
  - apply is_bytes_le_bytes.
  - lia.
  - rewrite length_le_bytes, Hval0, E. lia.
  - rewrite Hp. f_equal. rewrite Hval0 in Hval.
    rewrite <- Hval. rewrite length_le_bytes in Hlen. rewrite <- Hlen.
    symmetry. by apply le_bytes_le_value.
Qed.

Lemma whole_blocks (D : list Z) (a : nat) :
  length D = (64 * a)%nat → (length D / 64)%nat = a.
Proof. intros ->. by rewrite Nat.mul_comm, Nat.div_mul. Qed.

(** A feed of 512 bits takes a context from [D] to [D] and one more block. *)
Lemma absorb_block (XX D l : list Z) (a : nat) :
  length D = (64 * a)%nat → (64 ≤ length l)%nat →
  8 * Z.of_nat (length D) + 512 < 2 ^ 64 →
  MD4Update XX (absorbed D) (Some l) 512 = Some (absorbed (D ++ take 64 l), []).
Proof.
  intros HD Hl Hfit.
  rewrite (MD4Update_full _ _ _ (le_bytes 8 (8 * Z.of_nat (length D) + 512)));
    [| done | apply count_loop_le_bytes; lia].
  rewrite MDblock_transform by (cbn [buffer]; by apply length_compress).
  unfold absorbed. cbn [buffer count done].
  rewrite (whole_blocks D a) by done.
  rewrite (whole_blocks (D ++ take 64 l) (Datatypes.S a))
    by (rewrite length_app, length_take; lia).
  rewrite compress_S_r by done. rewrite transform_take by lia.
  replace (8 * Z.of_nat (length (D ++ take 64 l)))
    with (8 * Z.of_nat (length D) + 512); [done|].
  rewrite length_app, length_take. lia.
Qed.

(** The loop of [md4_update]: [k] iterations absorb [k] blocks. *)
Lemma md4_update_loop_absorb (k : nat) :
  ∀ (fuel : nat) (XX D l : list Z) (mdlen : Z) (out : list message) (a : nat),
    length D = (64 * a)%nat → (64 * k ≤ length l)%nat →
    8 * (Z.of_nat (length D) + 64 * Z.of_nat k) < 2 ^ 64 →
    (k ≤ fuel)%nat → mdlen ≤ 512 * (Z.of_nat k + 1) →
    (k = 0%nat ∨ 512 * Z.of_nat k < mdlen) →
    md4_update_loop fuel XX (absorbed D) (Some l) mdlen out
    = Some (absorbed (D ++ take (64 * k) l), Some (drop (64 * k) l),
            mdlen - 512 * Z.of_nat k, out).
Proof.
  induction k as [|k IH]; intros fuel XX D l mdlen out a HD Hl Hfit Hfuel Hhi Hlo.
  - assert (Hexit : bool_decide (mdlen > 512) = false)
      by (apply bool_decide_eq_false_2; lia).
    rewrite Nat.mul_0_r, take_0, drop_0, app_nil_r, Z.sub_0_r.
    destruct fuel; cbn [md4_update_loop]; by rewrite Hexit.
  - destruct fuel as [|fuel]; [lia|]. cbn [md4_update_loop].
    rewrite bool_decide_eq_true_2 by lia.
    rewrite (absorb_block XX D l a) by (done || lia).
    cbn [mbind option_bind ptr_add fmap option_fmap option_map].
    rewrite app_nil_r.
    rewrite (IH fuel XX (D ++ take 64 l) (drop 64 l) (mdlen - 512) out (Datatypes.S a)).
    + rewrite <- app_assoc, take_take_drop, drop_drop.
      replace (64 + 64 * k)%nat with (64 * Datatypes.S k)%nat by lia.
      do 3 f_equal. lia.
    + rewrite length_app, length_take. lia.
    + rewrite length_drop. lia.
    + rewrite length_app, length_take. lia.
    + lia.
    + lia.
    + destruct k; [by left | right; lia].
Qed.

Lemma s32_small (z : Z) : 0 ≤ z < 2 ^ 31 → s32 z = z.
Proof.
  intros Hz. unfold s32. rewrite Z.mod_small by lia.
  destruct (Z.ltb_spec z (2 ^ 31)); [done | lia].
Qed.

Lemma u32_small (z : Z) : 0 ≤ z < 2 ^ 32 → u32 z = z.
Proof. intros Hz. unfold u32. by rewrite Z.mod_small. Qed.

(** ** The terminal block against the padding *)

Lemma scratch_bytes (l : list Z) (r : nat) :
  (r < 64)%nat →
  scratch l (8 * Z.of_nat r) = take r l ++ [0x80] ++ replicate (63 - r) 0.
Proof.
  intros Hr. unfold scratch.
  replace (8 * Z.of_nat r) with (Z.of_nat r * 8) by lia.
  rewrite Z.div_mul by lia. rewrite Z.mod_mul by lia. rewrite Nat2Z.id.
  by rewrite boundary_byte_0.
Qed.

(** The padding of a message that ends [r] bytes into a block. *)
Lemma padding_tail (a r : nat) :
  (r < 64)%nat →
  Reference.padding (64 * a + r)
  = [0x80] ++ replicate (if decide (r ≤ 55)%nat then 55 - r else 119 - r)%nat 0
    ++ le_bytes 8 (8 * Z.of_nat (64 * a + r)).
Proof.
  intros Hr. unfold Reference.padding.
  assert (Hmod : ((64 * a + r) `mod` 64)%nat = r)
    by (rewrite Nat.add_comm, Nat.mul_comm, Nat.Div0.mod_add, Nat.mod_small; lia).
  rewrite Hmod. do 2 f_equal. f_equal.
  case_decide.
  - replace (55 + 64 - r)%nat with ((55 - r) + 1 * 64)%nat by lia.
    rewrite Nat.Div0.mod_add. apply Nat.mod_small. lia.
  - apply Nat.mod_small. lia.
Qed.

(** A terminal feed of [r] whole bytes after the blocks [D] leaves the
    state of the direct computation on [D] and these bytes. *)
Lemma terminal_reference (D l : list Z) (a r : nat) :
  length D = (64 * a)%nat → (r < 64)%nat → (r ≤ length l)%nat →
  let MD := terminal (absorbed D) l (8 * Z.of_nat r)
              (le_bytes 8 (8 * Z.of_nat (length D + r))) in
  done MD = 1
  ∧ Reference.state_bytes (buffer MD) = Reference.md4 (D ++ take r l).
Proof.
  intros HD Hr Hl MD. split; [done|]. subst MD.
  unfold Reference.md4, terminal. cbv zeta. f_equal.
  rewrite scratch_bytes by done.
  assert (Hlen : length (D ++ take r l) = (64 * a + r)%nat)
    by (rewrite length_app, length_take; lia).
  rewrite Hlen, padding_tail by done. rewrite HD.
  set (cnt := le_bytes 8 (8 * Z.of_nat (64 * a + r))).
  assert (Hcnt : length cnt = 8%nat) by apply length_le_bytes.
  replace (8 * Z.of_nat r / 8) with (Z.of_nat r)
    by (rewrite Z.mul_comm, Z.div_mul; lia).
  unfold absorbed. cbn [buffer count done]. rewrite (whole_blocks D a) by done.
  assert (Hst : length (Reference.compress a Reference.initial D) = 4%nat)
    by (by apply length_compress).
  case_decide as H55.
  - rewrite bool_decide_eq_true_2 by lia.
    rewrite MDblock_transform by done. cbn [buffer].
    replace (63 - r)%nat with ((55 - r) + 8)%nat by lia.
    rewrite replicate_add.
    replace (take r l ++ [128] ++ replicate (55 - r) 0 ++ replicate 8 0)
      with ((take r l ++ [128] ++ replicate (55 - r) 0) ++ replicate 8 0)
      by (by rewrite <- !app_assoc).
    rewrite take_app_length'
      by (rewrite !length_app, length_take, length_replicate; cbn; lia).
    rewrite (whole_blocks _ (Datatypes.S a))
      by (rewrite !length_app, length_take, length_replicate, Hcnt; cbn [length]; lia).
    rewrite <- (app_assoc D). rewrite compress_S_r by done.
    by rewrite <- !app_assoc.
  - rewrite bool_decide_eq_false_2 by lia.
    rewrite (MDblock_transform (Build_MD4_CTX _ _ _)) by done.
    rewrite MDblock_transform by apply length_transform.
    cbn [buffer].
    rewrite (whole_blocks _ (Datatypes.S (Datatypes.S a)))
      by (rewrite !length_app, length_take, length_replicate, Hcnt; cbn [length]; lia).
    replace (119 - r)%nat with ((63 - r) + 56)%nat by lia.
    rewrite replicate_add.
    replace ((D ++ take r l) ++ [128] ++ (replicate (63 - r) 0 ++ replicate 56 0) ++ cnt)
      with ((D ++ (take r l ++ [128] ++ replicate (63 - r) 0)) ++ (replicate 56 0 ++ cnt))
      by (by rewrite <- !app_assoc).
    rewrite compress_S_r
      by (rewrite !length_app, length_take, length_replicate; cbn; lia).
    by rewrite compress_S_r by done.
Qed.

(** ** MD4Final *)

Lemma MD4Final_buf (b : list Z) :
  for_loop 0 4 (λ i buf,
    let w := b !!! i in
    snd (for_loop 0 4 (λ j '(w, buf), (Z.shiftr w 8, buf ++ [u8 w])) (w, buf))) []
  = le_bytes 4 (b !!! 0%nat) ++ le_bytes 4 (b !!! 1%nat)
    ++ le_bytes 4 (b !!! 2%nat) ++ le_bytes 4 (b !!! 3%nat).
Proof.
  unfold for_loop. cbn [seq Nat.sub fold_left snd le_bytes app].
  unfold u8. rewrite !Z.shiftr_div_pow2 by lia.
  done.
Qed.

Lemma state_bytes_4 (b : list Z) :
  length b = 4%nat →
  le_bytes 4 (b !!! 0%nat) ++ le_bytes 4 (b !!! 1%nat)
  ++ le_bytes 4 (b !!! 2%nat) ++ le_bytes 4 (b !!! 3%nat)
  = Reference.state_bytes b.
Proof.
  intros Hb. destruct b as [|w0 [|w1 [|w2 [|w3 [|]]]]]; try discriminate.
  unfold Reference.state_bytes. cbn [mbind list_bind lookup_total list_lookup_total].
  by rewrite app_nil_r.
Qed.

(** On a finished context [MD4Final] only writes the state out. *)
Lemma MD4Final_finished (XX : list Z) (MD : MD4_CTX) :
  done MD ≠ 0 →
  MD4Final XX MD
  = Some (le_bytes 4 (buffer MD !!! 0%nat) ++ le_bytes 4 (buffer MD !!! 1%nat)
          ++ le_bytes 4 (buffer MD !!! 2%nat) ++ le_bytes 4 (buffer MD !!! 3%nat),
          MD, []).
Proof.
  intros Hdone. unfold MD4Final. rewrite MD4Update_courtesy by done.
  cbn [mbind option_bind]. by rewrite MD4Final_buf.
Qed.

(** On an unfinished one it pads first. *)
Lemma MD4Final_unfinished (XX : list Z) (MD : MD4_CTX) :
  done MD = 0 → length XX = 64%nat → length (count MD) = 8%nat →
  let MD' := terminal MD [] 0 (count MD) in
  MD4Final XX MD
  = Some (le_bytes 4 (buffer MD' !!! 0%nat) ++ le_bytes 4 (buffer MD' !!! 1%nat)
          ++ le_bytes 4 (buffer MD' !!! 2%nat) ++ le_bytes 4 (buffer MD' !!! 3%nat),
          MD', []).
Proof.
  intros Hdone HXX Hcnt MD'. unfold MD4Final.
  rewrite (MD4Update_empty XX MD NULL []) by done.
  cbn [mbind option_bind]. by rewrite MD4Final_buf.
Qed.

Lemma length_buffer_terminal (MD : MD4_CTX) (Xb cnt : list Z) (bits : Z) :
  length (buffer MD) = 4%nat → length (buffer (terminal MD Xb bits cnt)) = 4%nat.
Proof.
  intros Hb. unfold terminal. cbv zeta. cbn [buffer].
  case_bool_decide.
  - rewrite MDblock_transform by done. apply length_transform.
  - rewrite (MDblock_transform (Build_MD4_CTX _ _ _)) by done.
    rewrite MDblock_transform by apply length_transform. apply length_transform.
Qed.

(** ** The adapter on the contexts it reaches *)

(** A feed of a positive multiple of 64 bytes leaves the context
    unfinished, its blocks absorbed. *)
Lemma md4_update_whole (XX D l : list Z) (a j : nat) :
  length D = (64 * a)%nat → (64 * Datatypes.S j ≤ length l)%nat →
  Z.of_nat (64 * Datatypes.S j) < 2 ^ 28 →
  8 * Z.of_nat (length D + 64 * Datatypes.S j) < 2 ^ 64 →
  md4_update XX (Build_PPP_MD_CTX (Some (absorbed D))) (Some l)
             (Z.of_nat (64 * Datatypes.S j))
  = Some (1, Build_PPP_MD_CTX (Some (absorbed (D ++ take (64 * Datatypes.S j) l))), []).
Proof.
  intros HD Hl Hlen Hfit. unfold md4_update. cbn [priv mbind option_bind].
  rewrite s32_small by lia.
  rewrite (md4_update_loop_absorb j _ XX D l _ [] a) by (done || lia).
  cbn [mbind option_bind].
  rewrite u32_small by lia.
  replace (Z.of_nat (64 * Datatypes.S j) * 8 - 512 * Z.of_nat j) with 512 by lia.
  rewrite (absorb_block XX _ _ (a + j))
    by (rewrite ?length_app, ?length_take, ?length_drop; lia).
  cbn [mbind option_bind app].
  rewrite <- app_assoc, take_take_drop.
  by replace (64 * j + 64)%nat with (64 * Datatypes.S j)%nat by lia.
Qed.

(** Any other feed is terminal. *)
Lemma md4_update_terminal (XX D l : list Z) (a q r : nat) :
  length D = (64 * a)%nat → (r < 64)%nat → (r ≠ 0 ∨ q = 0)%nat →
  (64 * q + r ≤ length l)%nat → Z.of_nat (64 * q + r) < 2 ^ 28 →
  8 * Z.of_nat (length D + (64 * q + r)) < 2 ^ 64 →
  length XX = 64%nat →
  md4_update XX (Build_PPP_MD_CTX (Some (absorbed D))) (Some l) (Z.of_nat (64 * q + r))
  = Some (1, Build_PPP_MD_CTX (Some
            (terminal (absorbed (D ++ take (64 * q) l)) (drop (64 * q) l)
               (8 * Z.of_nat r)
               (le_bytes 8 (8 * Z.of_nat (length (D ++ take (64 * q) l) + r))))), []).
Proof.
  intros HD Hr Hq Hl Hlen Hfit HXX. unfold md4_update. cbn [priv mbind option_bind].
  rewrite s32_small by lia.
  rewrite (md4_update_loop_absorb q _ XX D l _ [] a) by (done || lia).
  cbn [mbind option_bind].
  replace (Z.of_nat (64 * q + r) * 8 - 512 * Z.of_nat q) with (8 * Z.of_nat r) by lia.
  rewrite u32_small by lia.
  set (D' := D ++ take (64 * q) l).
  assert (HD' : length D' = (64 * (a + q))%nat)
    by (unfold D'; rewrite length_app, length_take; lia).
  destruct (decide (r = 0%nat)) as [->|Hr0].
  - rewrite (MD4Update_empty XX (absorbed D') _ (drop (64 * q) l));
      [| done | done | apply length_le_bytes].
    cbn [mbind option_bind app count absorbed]. by rewrite Nat.add_0_r.
  - rewrite (MD4Update_partial XX (absorbed D') _
               (le_bytes 8 (8 * Z.of_nat (length D' + r)))).
    + done.
    + done.
    + lia.
    + done.
    + replace (8 * Z.of_nat r / 8) with (Z.of_nat r)
        by (rewrite Z.mul_comm, Z.div_mul; lia).
      rewrite Nat2Z.id, length_drop. lia.
    + unfold absorbed. cbn [count].
      rewrite count_loop_le_bytes by lia. do 2 f_equal. lia.
    + apply length_le_bytes.
Qed.

(** ** From creation to the digest *)

Lemma digest_of_unfold (XX : list Z) (calls : list (ptr * Z)) :
  digest_of XX calls
  = '(ctx, _) ← feed XX (Build_PPP_MD_CTX (Some (absorbed []))) calls;
    '(_, buf, _, _) ← md4_final XX ctx;
    Some buf.
Proof. reflexivity. Qed.

Lemma feed_app (XX : list Z) (ctx : PPP_MD_CTX) (c1 c2 : list (ptr * Z)) :
  feed XX ctx (c1 ++ c2)
  = '(ctx, m1) ← feed XX ctx c1;
    '(ctx, m2) ← feed XX ctx c2;
    Some (ctx, m1 ++ m2).
Proof.
  revert ctx. induction c1 as [|[data len] c1 IH]; intros ctx.
  - cbn [app feed mbind option_bind]. by destruct (feed XX ctx c2) as [[? ?]|].
  - cbn [app feed]. destruct (md4_update XX ctx data len) as [[[? ctx'] out]|]; [|done].
    cbn [mbind option_bind]. rewrite IH.
    destruct (feed XX ctx' c1) as [[ctx1 m1]|]; [|done].
    cbn [mbind option_bind].
    destruct (feed XX ctx1 c2) as [[ctx2 m2]|]; [|done].
    cbn [mbind option_bind]. by rewrite app_assoc.
Qed.

(** Whole chunks keep the context unfinished and nothing is printed. *)
Lemma feed_wholes (XX : list Z) (wholes : list (list Z)) :
  ∀ (D : list Z) (a : nat),
    length D = (64 * a)%nat → Forall whole wholes →
    Forall (λ c, Z.of_nat (length c) < 2 ^ 28) wholes →
    8 * Z.of_nat (length (D ++ concat wholes)) < 2 ^ 64 →
    feed XX (Build_PPP_MD_CTX (Some (absorbed D))) (calls_of wholes)
    = Some (Build_PPP_MD_CTX (Some (absorbed (D ++ concat wholes))), []).
Proof.
  induction wholes as [|c wholes IH]; intros D a HD Hwhole Hsmall Hfit.
  - cbn. by rewrite app_nil_r.
  - apply Forall_cons_1 in Hwhole as [[j Hc] Hwhole].
    apply Forall_cons_1 in Hsmall as [Hsmall_c Hsmall].
    cbn [calls_of fmap list_fmap feed concat]. rewrite Hc.
    cbn [concat] in Hfit. rewrite !length_app in Hfit.
    rewrite md4_update_whole with (a := a); [| done | lia | lia | lia].
    cbn [mbind option_bind].
    rewrite <- Hc, firstn_all.
    fold (calls_of wholes).
    rewrite (IH (D ++ c) (a + Datatypes.S j)%nat);
      [| rewrite length_app; lia | done | done | rewrite <- app_assoc, !length_app; lia].
    cbn [mbind option_bind app]. by rewrite <- app_assoc.
Qed.

(** Finishing right after whole blocks. *)
Lemma md4_final_absorbed (XX D : list Z) (a : nat) :
  length D = (64 * a)%nat → length XX = 64%nat →
  ∃ ctx, md4_final XX (Build_PPP_MD_CTX (Some (absorbed D)))
         = Some (1, Reference.md4 D, ctx, []).
Proof.
  intros HD HXX. unfold md4_final. cbn [priv mbind option_bind].
  rewrite MD4Final_unfinished; [| done | done | apply length_le_bytes].
  cbn [mbind option_bind]. eexists. do 3 f_equal.
  destruct (terminal_reference D [] a 0 HD ltac:(lia) ltac:(cbn; lia)) as [_ Href].
  cbv zeta in Href. rewrite take_nil, app_nil_r, Nat.add_0_r in Href.
  rewrite <- Href. rewrite state_bytes_4; [done|].
  apply length_buffer_terminal. cbn [absorbed buffer]. by apply length_compress.
Qed.

(** The last feed call and the finish. *)
Lemma last_call (XX D l : list Z) (a n : nat) :
  length D = (64 * a)%nat → length XX = 64%nat → (n ≤ length l)%nat →
  Z.of_nat n < 2 ^ 28 → 8 * Z.of_nat (length D + n) < 2 ^ 64 →
  ∃ ctx ctx',
    md4_update XX (Build_PPP_MD_CTX (Some (absorbed D))) (Some l) (Z.of_nat n)
    = Some (1, ctx, [])
    ∧ md4_final XX ctx = Some (1, Reference.md4 (D ++ take n l), ctx', []).
Proof.
  intros HD HXX Hl Hn Hfit.
  pose proof (Nat.div_mod_eq n 64) as Hqr.
  pose proof (Nat.mod_upper_bound n 64 ltac:(lia)) as Hr.
  set (q := (n / 64)%nat) in *. set (r := (n `mod` 64)%nat) in *.
  destruct (decide (r = 0 ∧ q ≠ 0)%nat) as [[Hr0 Hq0]|Hterm].
  - destruct q as [|j]; [done|].
    assert (Hnj : n = (64 * Datatypes.S j)%nat) by lia.
    destruct (md4_final_absorbed XX (D ++ take n l) (a + Datatypes.S j))
      as (ctx' & Hfinal); [rewrite length_app, length_take; lia | done |].
    eexists _, ctx'. split; [|exact Hfinal].
    rewrite Hnj. apply md4_update_whole with (a := a); [done | lia | lia | lia].
  - eexists _, _. split.
    + rewrite Hqr. apply md4_update_terminal with (a := a); [done | done | lia | lia | lia | lia | done].
    + unfold md4_final. cbn [priv mbind option_bind].
      set (D' := D ++ take (64 * q) l).
      assert (HD' : length D' = (64 * (a + q))%nat)
        by (unfold D'; rewrite length_app, length_take; lia).
      destruct (terminal_reference D' (drop (64 * q) l) (a + q) r HD' Hr)
        as [Hdone Href]; [rewrite length_drop; lia|].
      cbv zeta in Hdone, Href.
      rewrite MD4Final_finished by (rewrite Hdone; lia).
      cbn [mbind option_bind]. do 4 f_equal.
      rewrite state_bytes_4
        by (apply length_buffer_terminal; cbn [absorbed buffer]; by apply length_compress).
      rewrite Href. unfold D'. rewrite <- app_assoc, take_take_drop.
      by replace (64 * q + r)%nat with n by lia.
Qed.

Lemma length_concat_elem (c : list Z) (ls : list (list Z)) :
  c ∈ ls → (length c ≤ length (concat ls))%nat.
Proof.
  induction 1 as [c ls|c c' ls _ IH]; cbn [concat]; rewrite length_app; lia.
Qed.

Lemma length_concat_wholes (wholes : list (list Z)) :
  Forall whole wholes → ∃ a : nat, length (concat wholes) = (64 * a)%nat.
Proof.
  induction 1 as [|c wholes [j Hc] _ [a Ha]].
  - by exists 0%nat.
  - exists (Datatypes.S j + a)%nat. cbn [concat]. rewrite length_app. lia.
Qed.

(** Whole chunks, then any chunk, then finish: the digest of the whole,
    and nothing printed on the way. *)
Lemma digest_of_chunks (XX : list Z) (wholes : list (list Z)) (last : list Z) :
  length XX = 64%nat → Forall whole wholes →
  Z.of_nat (length (concat wholes ++ last)) < 2 ^ 28 →
  (∃ ctx, feed XX (Build_PPP_MD_CTX (Some (absorbed []))) (calls_of (wholes ++ [last]))
          = Some (ctx, []))
  ∧ digest_of XX (calls_of (wholes ++ [last]))
    = Some (Reference.md4 (concat wholes ++ last)).
Proof.
  intros HXX Hwhole Hlen. rewrite length_app in Hlen.
  assert (Hsmall : Forall (λ c, Z.of_nat (length c) < 2 ^ 28) wholes).
  { apply list.Forall_forall. intros c Hc%length_concat_elem. lia. }
  destruct (length_concat_wholes wholes Hwhole) as [a Ha].
  destruct (last_call XX (concat wholes) last a (length last))
    as (ctx & ctx' & Hupdate & Hfinal); [done | done | done | lia | lia |].
  rewrite firstn_all in Hfinal.
  assert (Hfeed : feed XX (Build_PPP_MD_CTX (Some (absorbed [])))
                    (calls_of (wholes ++ [last])) = Some (ctx, [])).
  { unfold calls_of. rewrite fmap_app. fold (calls_of wholes). rewrite feed_app.
    rewrite (feed_wholes XX wholes [] 0%nat); [| done | done | done | cbn [app]; lia].
    cbn [mbind option_bind app fmap list_fmap feed]. rewrite Hupdate.
    by cbn [mbind option_bind app]. }
  split; [by exists ctx|].
  rewrite digest_of_unfold, Hfeed. cbn [mbind option_bind]. rewrite Hfinal.
  by cbn [mbind option_bind].
Qed.

(** One call from a buffer that holds the message and anything after. *)
Lemma digest_of_message (XX M tail : list Z) :
  length XX = 64%nat → Z.of_nat (length M) < 2 ^ 28 →
  digest_of XX [(Some (M ++ tail), Z.of_nat (length M))] = Some (Reference.md4 M).
Proof.
  intros HXX Hlen.
  destruct (last_call XX [] (M ++ tail) 0 (length M))
    as (ctx & ctx' & Hupdate & Hfinal);
    [done | done | rewrite length_app; lia | done | cbn [length]; lia |].
  rewrite take_app_length in Hfinal. cbn [app] in Hfinal.
  rewrite digest_of_unfold. cbn [feed]. rewrite Hupdate.
  cbn [mbind option_bind]. rewrite Hfinal. by cbn [mbind option_bind].
Qed.

(** No feed call at all. *)
Lemma digest_of_nothing (XX : list Z) :
  length XX = 64%nat → digest_of XX [] = Some (Reference.md4 []).
Proof.
  intros HXX. rewrite digest_of_unfold. cbn [feed mbind option_bind].
  destruct (md4_final_absorbed XX [] 0) as [ctx Hfinal]; [done | done |].
  rewrite Hfinal. by cbn [mbind option_bind].
Qed.

(** ** What every feed keeps *)

(** A feed of fewer than 512 bits finishes the context, whatever the
    scratch buffer held. *)
Lemma MD4Update_count (XX : list Z) (MD : MD4_CTX) (X : ptr) (n : Z) (cnt : list Z) :
  done MD = 0 → 0 ≤ n < 512 → (n ≠ 0 → X ≠ NULL) →
  count_loop n (count MD) = Some cnt →
  ∃ MD', MD4Update XX MD X n = Some (MD', []) ∧ count MD' = cnt ∧ done MD' = 1.
Proof.
  intros Hdone Hn HX Hcnt.
  cbv beta delta [MD4Update].
  rewrite (bool_decide_eq_true_2 (done MD = 0)) by done.
  rewrite andb_false_r. cbn [negb]. rewrite Hcnt. cbn [mbind option_bind].
  rewrite (bool_decide_eq_false_2 (n = 512)) by lia.
  rewrite (bool_decide_eq_false_2 (n > 512)) by lia.
  cbv zeta.
  match goal with
  | |- context [mbind _ ?o] => assert (Hsome : ∃ XX', o = Some XX')
  end.
  { case_bool_decide; [by eexists|].
    destruct X as [Xb|]; [by eexists | by destruct HX]. }
  destruct Hsome as [XX' Hsome]. rewrite Hsome. clear Hsome. cbn [mbind option_bind].
  case_bool_decide; eexists; (split_and!; [reflexivity | by rewrite ?count_MDblock | done]).
Qed.

(** On a finished context the loop of [md4_update] only prints. *)
Lemma md4_update_loop_done (XX : list Z) (MD : MD4_CTX) (fuel : nat) :
  ∀ (data : ptr) (mdlen : Z) (out : list message),
    done MD ≠ 0 → mdlen ≤ 512 * (Z.of_nat fuel + 1) →
    ∃ data' mdlen' k,
      md4_update_loop fuel XX MD data mdlen out
      = Some (MD, data', mdlen', out ++ replicate k Error_already_done)
      ∧ mdlen' ≤ 512 ∧ (0 < mdlen → 0 < mdlen').
Proof.
  induction fuel as [|fuel IH]; intros data mdlen out Hdone Hfuel.
  - exists data, mdlen, 0%nat. cbn [md4_update_loop].
    rewrite bool_decide_eq_false_2 by lia. by rewrite app_nil_r.
  - cbn [md4_update_loop]. case_bool_decide as Hlen.
    + rewrite MD4Update_already_done by (done || lia).
      cbn [mbind option_bind].
      destruct (IH (ptr_add data 64) (mdlen - 512) (out ++ [Error_already_done]))
        as (data' & mdlen' & k & -> & Hle & Hpos); [done | lia |].
      exists data', mdlen', (Datatypes.S k).
      split_and!; [by rewrite <- app_assoc | done | lia].
    + exists data, mdlen, 0%nat. rewrite app_nil_r. split_and!; [done | lia | done].
Qed.

(** Accepted calls add up in the counter. *)
Lemma updates_count (XX : list Z) (calls : list (ptr * Z)) :
  ∀ MD : MD4_CTX,
    done MD = 0 → is_bytes (count MD) → accepted calls →
    le_value (count MD) + bits_fed calls < 2 ^ (8 * Z.of_nat (length (count MD))) →
    ∃ MD', updates XX MD calls = Some (MD', [])
           ∧ le_value (count MD') = le_value (count MD) + bits_fed calls.
Proof.
  induction calls as [|[X n] calls IH]; intros MD Hdone Hbytes Hacc Hfit.
  - exists MD. cbn. split; [done | lia].
  - destruct Hacc as (Hn & HX & Hlast & Hacc).
    cbn [bits_fed fold_right snd] in Hfit. fold (bits_fed calls) in Hfit.
    assert (Hbits : 0 ≤ bits_fed calls).
    { clear -Hacc. induction calls as [|[X' n'] calls IH]; [done|].
      destruct Hacc as (? & _ & _ & ?). cbn [bits_fed fold_right snd].
      fold (bits_fed calls). specialize (IH ltac:(done)). lia. }
    destruct (count_loop_spec (count MD) n Hbytes ltac:(lia) ltac:(lia))
      as (cnt & Hcnt & Hlen & Hcntb & Hval).
    cbn [updates bits_fed fold_right snd]. fold (bits_fed calls).
    destruct (decide (n = 512)) as [->|Hn512].
    + destruct X as [Xb|]; [|by destruct HX].
      rewrite (MD4Update_full _ _ _ cnt) by done. cbn [mbind option_bind].
      destruct (IH (MDblock (Build_MD4_CTX (buffer MD) cnt 0) Xb))
        as (MD' & -> & Hval');
        [by rewrite done_MDblock | by rewrite count_MDblock | done
        | rewrite count_MDblock; cbn [count]; rewrite Hlen; lia |].
      exists MD'. cbn [mbind option_bind app]. split; [done|].
      rewrite Hval', count_MDblock. cbn [count]. lia.
    + destruct calls as [|call calls]; [|by destruct Hn512; apply Hlast].
      destruct (MD4Update_count XX MD X n cnt) as (MD' & -> & Hc & _);
        [done | lia | done | done |].
      exists MD'. cbn [mbind option_bind updates app bits_fed fold_right].
      split; [done|]. rewrite Hc. lia.
Qed.

(** * The claims *)

(** C1.  Known vectors.  For the empty byte string, "abc" and
    "message digest", create, one feed call and finish give the digests
    31d6cfe0d16ae931b73c59d7e0c089c0, a448017aaf21d8525fc10ae87aa6729d and
    d9130a8164549fe818874806e1c7014b, whatever the scratch buffer holds on
    entry.  A zero-bit feed on the fresh context pads and finishes it: the
    state it leaves is already the digest of the empty string. *)
Theorem C1_known_vectors (XX : list Z) :
  length XX = 64%nat →
  hex <$> digest_of XX [(Some [], 0)]
    = Some "31d6cfe0d16ae931b73c59d7e0c089c0"%string
  ∧ hex <$> digest_of XX [(Some (bytes_of "abc"), 3)]
    = Some "a448017aaf21d8525fc10ae87aa6729d"%string
  ∧ hex <$> digest_of XX [(Some (bytes_of "message digest"), 14)]
    = Some "d9130a8164549fe818874806e1c7014b"%string
  ∧ ∃ MD, MD4Update XX (MD4Init calloc_MD4_CTX) NULL 0 = Some (MD, [])
          ∧ done MD = 1
          ∧ hex (Reference.state_bytes (buffer MD))
            = "31d6cfe0d16ae931b73c59d7e0c089c0"%string.
Proof.
  intros HXX. split_and!.
  - pose proof (digest_of_message XX [] [] HXX eq_refl) as H.
    cbn [app] in H. change (Z.of_nat (length (@nil Z))) with 0 in H.
    rewrite H. by vm_compute.
  - pose proof (digest_of_message XX (bytes_of "abc") [] HXX eq_refl) as H.
    rewrite app_nil_r in H.
    change (Z.of_nat (length (bytes_of "abc"))) with 3 in H.
    rewrite H. by vm_compute.
  - pose proof (digest_of_message XX (bytes_of "message digest") [] HXX eq_refl) as H.
    rewrite app_nil_r in H.
    change (Z.of_nat (length (bytes_of "message digest"))) with 14 in H.
    rewrite H. by vm_compute.
  - eexists. split_and!.
    + by apply (MD4Update_empty XX (MD4Init calloc_MD4_CTX) NULL []).
    + reflexivity.
    + by vm_compute.
Qed.

Lemma C1_known_vectors_witness :
  length (replicate 64 0xab) = 64%nat
  ∧ hex <$> digest_of (replicate 64 0xab) [(Some (bytes_of "abc"), 3)]
    = Some "a448017aaf21d8525fc10ae87aa6729d"%string.
Proof.
  split; [reflexivity|].
  exact (proj1 (proj2 (C1_known_vectors (replicate 64 0xab) eq_refl))).
Defined.

(** C2, as stated, fails: "abc" fed as "a" then "bc" gives the digest of
    "a", because a feed that is not a positive multiple of 64 bytes
    finishes the context and what follows is discarded. *)
Lemma C2_counterexample :
  digest_of (replicate 64 0) (calls_of [bytes_of "a"; bytes_of "bc"])
  ≠ digest_of (replicate 64 0) (calls_of [bytes_of "abc"])
  ∧ digest_of (replicate 64 0) (calls_of [bytes_of "a"; bytes_of "bc"])
    = digest_of (replicate 64 0) (calls_of [bytes_of "a"]).
Proof. split; [by vm_compute | by vm_compute]. Qed.

(** C2, amended.  For every message shorter than 2^28 bytes and every
    partition of it into feed calls in which every chunk but the last is a
    positive multiple of 64 bytes long, the digest is that of the message
    fed in one call, which is the digest of the direct computation.  The
    adapter does the splitting: no call prints anything, so the engine
    never sees more than 512 bits at a time. *)
Theorem C2_chunk_invariance (XX : list Z) (chunks : list (list Z)) :
  length XX = 64%nat → Forall whole (removelast chunks) →
  Z.of_nat (length (concat chunks)) < 2 ^ 28 →
  digest_of XX (calls_of chunks) = digest_of XX (calls_of [concat chunks])
  ∧ digest_of XX (calls_of [concat chunks]) = Some (Reference.md4 (concat chunks))
  ∧ ∃ ctx, feed XX (Build_PPP_MD_CTX (Some (MD4Init calloc_MD4_CTX))) (calls_of chunks)
           = Some (ctx, []).
Proof.
  intros HXX Hwhole Hlen.
  destruct (digest_of_chunks XX [] (concat chunks) HXX) as [_ Hone];
    [constructor | done |].
  cbn [app concat] in Hone.
  destruct (decide (chunks = [])) as [->|Hne].
  - cbn [concat] in Hone |- *. split_and!; [|done|by eexists].
    rewrite Hone. by apply digest_of_nothing.
  - destruct (exists_last Hne) as (wholes & c & ->).
    rewrite removelast_last in Hwhole.
    assert (Hcat : concat (wholes ++ [c]) = concat wholes ++ c)
      by (rewrite concat_app; cbn [concat]; by rewrite app_nil_r).
    rewrite Hcat in Hlen, Hone |- *.
    destruct (digest_of_chunks XX wholes c HXX Hwhole Hlen) as [Hfeed Hchunks].
    by rewrite Hone, Hchunks.
Qed.

Lemma C2_chunk_invariance_witness :
  digest_of (replicate 64 0) (calls_of [replicate 64 1; replicate 128 2; [3; 4; 5]])
  = digest_of (replicate 64 0)
      (calls_of [concat [replicate 64 1; replicate 128 2; [3; 4; 5]]]).
Proof.
  assert (Hwhole : Forall whole (removelast [replicate 64 1; replicate 128 2; [3; 4; 5]])).
  { cbn [removelast]. repeat constructor; [by exists 0%nat | by exists 1%nat]. }
  exact (proj1 (C2_chunk_invariance (replicate 64 0)
                  [replicate 64 1; replicate 128 2; [3; 4; 5]]
                  eq_refl Hwhole eq_refl)).
Defined.

(** C3.  The block transform is a function of the state and of one block:
    [MDblock] leaves in [buffer] what [Spec.transform] computes from the
    previous [buffer] and the block, and touches nothing else.
    [Spec.transform] assembles the 16 words least-significant byte first,
    runs three rounds of 16 steps with the selection functions, round
    constants (0 and the two octal constants), rotate amounts and word
    orders of the specification, and adds the working variables to the
    previous state modulo 2^32.  [Spec] is written with arithmetic of its
    own: the left rotation [Spec.rotate_left], the complement
    [Spec.complement] of the first selection function, the octal constants
    digit by digit and the reduction modulo 2^32 owe nothing to the macros
    [rot] and [~X] or to the constants of the code, which are proved to
    agree with them.  Bytes past the 64th are not read. *)
Theorem C3_block_transform (MDp : MD4_CTX) (Xb : list Z) :
  length (buffer MDp) = 4%nat →
  MDblock MDp Xb
  = Build_MD4_CTX (Spec.transform (buffer MDp) Xb) (count MDp) (done MDp)
  ∧ MDblock MDp (take 64 Xb) = MDblock MDp Xb.
Proof.
  intros Hlen. rewrite !MDblock_transform by done.
  by rewrite transform_take.
Qed.

Lemma C3_block_transform_witness :
  length (buffer (MD4Init calloc_MD4_CTX)) = 4%nat
  ∧ MDblock (MD4Init calloc_MD4_CTX) (replicate 64 0x61)
    = Build_MD4_CTX
        (Spec.transform (buffer (MD4Init calloc_MD4_CTX)) (replicate 64 0x61))
        (count (MD4Init calloc_MD4_CTX)) (done (MD4Init calloc_MD4_CTX)).
Proof.
  split; [reflexivity|].
  exact (proj1 (C3_block_transform (MD4Init calloc_MD4_CTX) (replicate 64 0x61) eq_refl)).
Defined.

(** C4.  A feed of fewer than 512 bits on an unfinished context is
    terminal.  The scratch buffer holds the whole bytes of the input, then
    the boundary byte (a single 1 bit right after the last valid bit, the
    bits below cleared), then zeros ([scratch]); with the boundary byte at
    index 55 or less the bit count goes to offset 56 and this one block is
    compressed, otherwise this block is compressed and then an all-zero
    block that carries the bit count at offset 56; the context is marked
    finished ([terminal]).  Messages of 55, 56 and 57 bytes get the digest
    of the direct computation, which pads 55 bytes to one block and 56 or
    57 bytes to two. *)
Theorem C4_terminal_feed (XX : list Z) (MD : MD4_CTX) (Xb : list Z) (n : Z)
    (M tail : list Z) :
  length XX = 64%nat → MD4_CTX_ok MD → done MD = 0 →
  0 ≤ n < 512 → (Z.to_nat (n / 8) ≤ length Xb)%nat →
  le_value (count MD) + n < 2 ^ 64 →
  (55 ≤ length M ≤ 57)%nat →
  (∃ cnt, length cnt = 8%nat
          ∧ le_value cnt = le_value (count MD) + n
          ∧ MD4Update XX MD (Some Xb) n = Some (terminal MD Xb n cnt, [])
          ∧ done (terminal MD Xb n cnt) = 1)
  ∧ digest_of XX [(Some (M ++ tail), Z.of_nat (length M))] = Some (Reference.md4 M)
  ∧ length (M ++ Reference.padding (length M))
    = (if decide (length M ≤ 55)%nat then 64 else 128)%nat.
Proof.
  intros HXX (Hbuf & Hlen & Hbytes) Hdone Hn HXb Hfit HM. split_and!.
  - destruct (decide (n = 0)) as [->|Hn0].
    + exists (count MD). split_and!; [done | lia | by apply MD4Update_empty | done].
    + destruct (count_loop_spec (count MD) n Hbytes) as (cnt & Hcnt & Hlen' & _ & Hval);
        [lia | rewrite Hlen; exact Hfit |].
      exists cnt. split_and!; [congruence | done | apply MD4Update_partial | done];
        (done || lia || congruence).
  - apply digest_of_message; [done | lia].
  - rewrite length_app. unfold Reference.padding.
    rewrite !length_app, length_replicate, length_le_bytes. cbn [length].
    assert (length M = 55 ∨ length M = 56 ∨ length M = 57)%nat as [->| [->| ->]]
      by lia; reflexivity.
Qed.

Lemma C4_terminal_feed_witness :
  digest_of (replicate 64 0) [(Some (replicate 56 0x61 ++ [0x62]), Z.of_nat 56)]
  = Some (Reference.md4 (replicate 56 0x61)).
Proof.
  assert (Hok : MD4_CTX_ok (MD4Init calloc_MD4_CTX)).
  { split_and!; [reflexivity | reflexivity |]. repeat constructor; done. }
  refine (proj1 (proj2 (C4_terminal_feed (replicate 64 0) (MD4Init calloc_MD4_CTX)
            (bytes_of "abc") 24 (replicate 56 0x61) [0x62]
            eq_refl Hok eq_refl _ _ eq_refl _)));
    [lia | vm_compute; lia | rewrite length_replicate; lia].
Defined.

(** C5.  Digest extraction first issues a zero-bit feed through [NULL]: a
    no-op on a finished context, the padding of an unfinished one.  It
    then writes the four state words, each least-significant byte first,
    in word order 0..3: 16 bytes.  It has no error path: nothing is
    printed, the adapter returns 1, and a created context always has its
    [priv] set. *)
Theorem C5_digest_extraction (XX : list Z) (MD : MD4_CTX) :
  length XX = 64%nat → length (count MD) = 8%nat →
  let MD' := if bool_decide (done MD = 0) then terminal MD [] 0 (count MD) else MD in
  let out := le_bytes 4 (buffer MD' !!! 0%nat) ++ le_bytes 4 (buffer MD' !!! 1%nat)
             ++ le_bytes 4 (buffer MD' !!! 2%nat) ++ le_bytes 4 (buffer MD' !!! 3%nat) in
  MD4Update XX MD NULL 0 = Some (MD', [])
  ∧ MD4Final XX MD = Some (out, MD', [])
  ∧ length out = 16%nat
  ∧ md4_final XX (Build_PPP_MD_CTX (Some MD))
    = Some (1, out, Build_PPP_MD_CTX (Some MD'), [])
  ∧ md4_init (Some (Build_PPP_MD_CTX None)) true
    = (1, Some (Build_PPP_MD_CTX (Some (MD4Init calloc_MD4_CTX)))).
Proof.
  intros HXX Hcnt MD' out.
  assert (Hupdate : MD4Update XX MD NULL 0 = Some (MD', [])).
  { subst MD'. case_bool_decide.
    - by apply MD4Update_empty.
    - by apply MD4Update_courtesy. }
  assert (Hfinal : MD4Final XX MD = Some (out, MD', [])).
  { unfold MD4Final. rewrite Hupdate. cbn [mbind option_bind].
    by rewrite MD4Final_buf. }
  split_and!; [done | done | | | done].
  - subst out. by rewrite !length_app, !length_le_bytes.
  - unfold md4_final. cbn [priv mbind option_bind]. rewrite Hfinal. done.
Qed.

Lemma C5_digest_extraction_witness :
  MD4Update (replicate 64 0) (MD4Init calloc_MD4_CTX) NULL 0
  = Some (terminal (MD4Init calloc_MD4_CTX) [] 0 (count (MD4Init calloc_MD4_CTX)), []).
Proof.
  exact (proj1 (C5_digest_extraction (replicate 64 0) (MD4Init calloc_MD4_CTX)
                  eq_refl eq_refl)).
Defined.

(** C6, as stated, fails: a feed of 513 bits on the fresh context changes
    the bit count, which is added before the size is checked. *)
Lemma C6_counterexample :
  ¬ ∃ msgs, MD4Update (replicate 64 0) (MD4Init calloc_MD4_CTX) (Some []) 513
            = Some (MD4Init calloc_MD4_CTX, msgs).
Proof. intros [msgs H]. vm_compute in H. discriminate H. Qed.

(** C6, amended.  A feed of more than 512 bits on an unfinished context is
    reported by the diagnostic on standard output only ([MD4Update]
    returns nothing) and leaves the state words and the finished flag as
    they were. *)
Theorem C6_illegal_count (XX : list Z) (MD : MD4_CTX) (X : ptr) (n : Z) :
  done MD = 0 → 512 < n ≤ 2 ^ 32 - 2 ^ 8 → is_bytes (count MD) →
  le_value (count MD) + n < 2 ^ (8 * Z.of_nat (length (count MD))) →
  ∃ MD', MD4Update XX MD X n = Some (MD', [Error_illegal_count n])
         ∧ buffer MD' = buffer MD ∧ done MD' = done MD.
Proof.
  intros Hdone Hn Hbytes Hfit.
  destruct (count_loop_spec (count MD) n Hbytes) as (cnt & Hcnt & _); [lia | done |].
  eexists. split_and!.
  - apply MD4Update_illegal; [done | lia | exact Hcnt].
  - done.
  - done.
Qed.

Lemma C6_illegal_count_witness :
  ∃ MD', MD4Update (replicate 64 0) (MD4Init calloc_MD4_CTX) NULL 1024
         = Some (MD', [Error_illegal_count 1024])
         ∧ buffer MD' = buffer (MD4Init calloc_MD4_CTX)
         ∧ done MD' = done (MD4Init calloc_MD4_CTX).
Proof.
  refine (C6_illegal_count (replicate 64 0) (MD4Init calloc_MD4_CTX) NULL 1024
            eq_refl _ _ eq_refl); [lia | repeat constructor; done].
Defined.

(** C7, as stated, fails: after "a" has finished the context, feeding "b"
    returns 1, the success value; the misuse is only printed. *)
Lemma C7_counterexample :
  ('(ctx, _) ← feed (replicate 64 0)
                 (Build_PPP_MD_CTX (Some (MD4Init calloc_MD4_CTX))) [(Some [0x61], 1)];
   '(result, _, msgs) ← md4_update (replicate 64 0) ctx (Some [0x62]) 1;
   Some (result, msgs))
  = Some (1, [Error_already_done]).
Proof. by vm_compute. Qed.

(** C7, amended.  A feed with a nonzero bit count on a finished context is
    only logged: [MD4Update] prints its diagnostic and the adapter still
    returns 1.  The context (state words, bit count, finished flag) is
    unchanged. *)
Theorem C7_feed_after_finish (XX : list Z) (MD : MD4_CTX) (X : ptr) (n len : Z) :
  done MD ≠ 0 → n ≠ 0 → 0 < len < 2 ^ 28 →
  MD4Update XX MD X n = Some (MD, [Error_already_done])
  ∧ ∃ k, md4_update XX (Build_PPP_MD_CTX (Some MD)) X len
         = Some (1, Build_PPP_MD_CTX (Some MD),
                 replicate (Datatypes.S k) Error_already_done).
Proof.
  intros Hdone Hn Hlen. split; [by apply MD4Update_already_done|].
  unfold md4_update. cbn [priv mbind option_bind].
  rewrite s32_small by lia.
  destruct (md4_update_loop_done XX MD (Z.to_nat (len * 8)) X (len * 8) [] Hdone)
    as (data' & mdlen' & k & -> & Hle & Hpos); [lia|].
  cbn [mbind option_bind app].
  rewrite MD4Update_already_done by (rewrite ?u32_small; lia).
  cbn [mbind option_bind]. exists k. do 3 f_equal.
  replace (Datatypes.S k) with (k + 1)%nat by lia. by rewrite replicate_add.
Qed.

Lemma C7_feed_after_finish_witness :
  MD4Update (replicate 64 0) (Build_MD4_CTX [1; 2; 3; 4] (replicate 8 0) 1) NULL 8
  = Some (Build_MD4_CTX [1; 2; 3; 4] (replicate 8 0) 1, [Error_already_done]).
Proof.
  refine (proj1 (C7_feed_after_finish (replicate 64 0)
            (Build_MD4_CTX [1; 2; 3; 4] (replicate 8 0) 1) NULL 8 1 _ _ _));
    [cbn [done]; lia | lia | lia].
Defined.

(** C8.  Finish always returns, and leaves a finished context; on it a
    zero-bit feed is a no-op, a second finish returns the same 16 bytes,
    and no feed whatever changes the context, so the digest bytes are
    stable. *)
Theorem C8_finalize_idempotent (XX XX' : list Z) (MD : MD4_CTX) :
  ∃ out MD',
    MD4Final XX MD = Some (out, MD', [])
    ∧ done MD' ≠ 0
    ∧ length out = 16%nat
    ∧ MD4Final XX' MD' = Some (out, MD', [])
    ∧ (∀ X, MD4Update XX' MD' X 0 = Some (MD', []))
    ∧ (∀ X n, ∃ msgs, MD4Update XX' MD' X n = Some (MD', msgs)).
Proof.
  assert (Hfirst : ∃ MD', MD4Update XX MD NULL 0 = Some (MD', []) ∧ done MD' ≠ 0).
  { destruct (decide (done MD = 0)) as [Hdone|Hdone].
    - destruct (MD4Update_count XX MD NULL 0 (count MD) Hdone)
        as (MD' & Hupdate & _ & Hd); [lia | done | apply count_loop_0 |].
      exists MD'. split; [done | lia].
    - exists MD. split; [by apply MD4Update_courtesy | done]. }
  destruct Hfirst as (MD' & Hupdate & Hdone').
  eexists _, MD'. split_and!.
  - unfold MD4Final. rewrite Hupdate. cbn [mbind option_bind].
    rewrite MD4Final_buf. reflexivity.
  - done.
  - by rewrite !length_app, !length_le_bytes.
  - by apply MD4Final_finished.
  - intros X. by apply MD4Update_courtesy.
  - intros X n. destruct (decide (n = 0)) as [->|Hn].
    + eexists. by apply MD4Update_courtesy.
    + eexists. by apply MD4Update_already_done.
Qed.

(** C9.  Creation sets the count to zero, and after any sequence of
    accepted feed calls the 8 count bytes, read as a little-endian integer,
    are the number of bits passed to these calls: every call adds its bit
    count, with the carry going through all 8 bytes, so totals up to 2^64
    are held. *)
Theorem C9_bit_count (XX : list Z) (calls : list (ptr * Z)) :
  accepted calls → bits_fed calls < 2 ^ 64 →
  le_value (count (MD4Init calloc_MD4_CTX)) = 0
  ∧ ∃ MD, updates XX (MD4Init calloc_MD4_CTX) calls = Some (MD, [])
          ∧ le_value (count MD) = bits_fed calls.
Proof.
  intros Hacc Hfit. split; [reflexivity|].
  destruct (updates_count XX calls (MD4Init calloc_MD4_CTX)) as (MD & Hrun & Hval);
    [reflexivity | repeat constructor; done | done | exact Hfit |].
  exists MD. split; [done|]. rewrite Hval. reflexivity.
Qed.

Lemma C9_bit_count_witness :
  ∃ MD, updates [] (MD4Init calloc_MD4_CTX)
          [(Some (replicate 64 7), 512); (Some (replicate 64 7), 512); (Some [1; 2], 13)]
        = Some (MD, [])
        ∧ le_value (count MD) = 1037.
Proof.
  refine (proj2 (C9_bit_count []
            [(Some (replicate 64 7), 512); (Some (replicate 64 7), 512); (Some [1; 2], 13)]
            _ eq_refl)).
  cbn [accepted]. split_and!; (lia || done).
Defined.

(** C10.  A zero-bit feed on an unfinished context does not read its
    input: it returns through [NULL] as through any pointer.  Whatever the
    scratch buffer held, the block it compresses has 0x80 in byte 0, zeros
    in bytes 1 to 55 and the bit count in bytes 56 to 63. *)
Theorem C10_zero_bit_feed (XX : list Z) (MD : MD4_CTX) (X : ptr) :
  done MD = 0 → length XX = 64%nat → length (count MD) = 8%nat →
  MD4Update XX MD X 0
  = Some (Build_MD4_CTX
            (buffer (MDblock MD ([0x80] ++ replicate 55 0 ++ count MD)))
            (count MD) 1, [])
  ∧ MD4Update XX MD X 0 = MD4Update XX MD NULL 0.
Proof.
  intros Hdone HXX Hcnt.
  assert (H : ∀ X, MD4Update XX MD X 0
                   = Some (Build_MD4_CTX
                             (buffer (MDblock MD ([0x80] ++ replicate 55 0 ++ count MD)))
                             (count MD) 1, [])).
  { intros X'. rewrite (MD4Update_empty XX MD X' []) by done.
    unfold terminal. cbv zeta.
    rewrite bool_decide_eq_true_2 by (vm_compute; discriminate).
    rewrite count_MDblock. cbn [count].
    replace (take 56 (scratch [] 0)) with ([0x80] ++ replicate 55 0) by reflexivity.
    destruct MD as [b c d]. cbn [buffer count done app]. reflexivity. }
  by rewrite !H.
Qed.

Lemma C10_zero_bit_feed_witness :
  MD4Update (replicate 64 0xff) (MD4Init calloc_MD4_CTX) (Some [1; 2; 3]) 0
  = MD4Update (replicate 64 0xff) (MD4Init calloc_MD4_CTX) NULL 0.
Proof.
  exact (proj2 (C10_zero_bit_feed (replicate 64 0xff) (MD4Init calloc_MD4_CTX)
                  (Some [1; 2; 3]) eq_refl eq_refl eq_refl)).
Defined.

(** * More of the engine and of the adapter *)

(** ** The counter *)

(** The loop keeps the array an array of bytes of the same size whenever it
    stays inside it. *)
Lemma count_loop_shape (p : list Z) :
  ∀ (tmp : Z) (p' : list Z),
    is_bytes p → count_loop tmp p = Some p' →
    length p' = length p ∧ is_bytes p'.
Proof.
  induction p as [|b p IH]; intros tmp p' Hp Hrun; cbn [count_loop] in Hrun.
  - destruct (tmp =? 0); by simplify_eq.
  - destruct (tmp =? 0); [by simplify_eq|].
    destruct (count_loop _ p) as [q|] eqn:Hq; [|done].
    cbn in Hrun. simplify_eq.
    apply Forall_cons_1 in Hp as [_ Hp].
    destruct (IH _ _ Hp Hq) as [Hlen Hq'].
    split; [by cbn; rewrite Hlen|].
    constructor; [|done].
    unfold u8. apply Z.mod_pos_bound. lia.
Qed.

(** The loop walks off the array when the sum does not fit. *)
Lemma count_loop_overflow (p : list Z) :
  ∀ tmp : Z,
    is_bytes p → 0 ≤ tmp ≤ 2 ^ 32 - 2 ^ 8 →
    2 ^ (8 * Z.of_nat (length p)) ≤ le_value p + tmp →
    count_loop tmp p = None.
Proof.
  induction p as [|b p IH]; intros tmp Hp Htmp Hover; cbn [count_loop].
  - cbn in Hover. destruct (Z.eqb_spec tmp 0); [lia | done].
  - pose proof (le_value_bound _ Hp) as Hbound.
    destruct (Z.eqb_spec tmp 0) as [->|Hne]; [lia|].
    apply Forall_cons_1 in Hp as [Hb Hp].
    pose proof (le_value_bound _ Hp) as Hbound'.
    unfold u32. rewrite (Z.mod_small (tmp + b)) by lia.
    rewrite Z.shiftr_div_pow2 by lia.
    rewrite IH; [done | done | |].
    + split; [apply Z.div_pos; lia|].
      apply Z.div_le_upper_bound; lia.
    + cbn [le_value fold_right] in Hover. fold (le_value p) in Hover.
      replace (8 * Z.of_nat (length (b :: p))) with (8 + 8 * Z.of_nat (length p)) in Hover
        by (cbn [length]; lia).
      rewrite Z.pow_add_r in Hover by lia.
      assert (2 ^ 8 * (le_value p + (tmp + b) / 2 ^ 8) ≤ le_value p * 2 ^ 8 + (tmp + b)
              ∧ le_value p * 2 ^ 8 + (tmp + b)
                < 2 ^ 8 * (le_value p + (tmp + b) / 2 ^ 8) + 2 ^ 8) as Hdiv.
      { pose proof (Z.div_mod (tmp + b) (2 ^ 8) ltac:(lia)).
        pose proof (Z.mod_pos_bound (tmp + b) (2 ^ 8) ltac:(lia)). lia. }
      nia.
Qed.

(** ** A finished context *)

(** Whatever the pointer and the length, [md4_update] leaves a finished
    context as it is and returns 1. *)
Lemma md4_update_finished (XX : list Z) (MD : MD4_CTX) (data : ptr) (len : Z) :
  done MD ≠ 0 →
  ∃ msgs, md4_update XX (Build_PPP_MD_CTX (Some MD)) data len
          = Some (1, Build_PPP_MD_CTX (Some MD), msgs).
Proof.
  intros Hdone. unfold md4_update. cbn [priv mbind option_bind].
  destruct (md4_update_loop_done XX MD (Z.to_nat (s32 (len * 8))) data
              (s32 (len * 8)) [] Hdone ltac:(lia))
    as (data' & mdlen' & k & -> & _ & _).
  cbn [mbind option_bind].
  destruct (decide (u32 mdlen' = 0)) as [->|Hne].
  - rewrite MD4Update_courtesy by done. by eexists.
  - rewrite MD4Update_already_done by done. by eexists.
Qed.

Lemma feed_finished (XX : list Z) (MD : MD4_CTX) (calls : list (ptr * Z)) :
  done MD ≠ 0 →
  ∃ msgs, feed XX (Build_PPP_MD_CTX (Some MD)) calls
          = Some (Build_PPP_MD_CTX (Some MD), msgs).
Proof.
  intros Hdone. induction calls as [|[data len] calls [msgs IH]]; [by eexists|].
  cbn [feed]. destruct (md4_update_finished XX MD data len Hdone) as [out ->].
  cbn [mbind option_bind]. rewrite IH. by eexists.
Qed.

(** A chunk that is not made of whole blocks finishes the context, and the
    words then held are those of the digest. *)
Lemma md4_update_last (XX D c tail : list Z) (a : nat) :
  length D = (64 * a)%nat → length XX = 64%nat → ¬ whole c →
  Z.of_nat (length c) < 2 ^ 28 → 8 * Z.of_nat (length D + length c) < 2 ^ 64 →
  ∃ MD,
    md4_update XX (Build_PPP_MD_CTX (Some (absorbed D))) (Some (c ++ tail))
               (Z.of_nat (length c))
    = Some (1, Build_PPP_MD_CTX (Some MD), [])
    ∧ done MD = 1 ∧ length (buffer MD) = 4%nat
    ∧ Reference.state_bytes (buffer MD) = Reference.md4 (D ++ c).
Proof.
  intros HD HXX Hwhole Hsmall Hfit.
  set (q := (length c / 64)%nat). set (r := (length c `mod` 64)%nat).
  assert (length c = (64 * q + r)%nat) as Hc by (apply Nat.div_mod_eq).
  assert (r < 64)%nat as Hr by (apply Nat.mod_upper_bound; lia).
  assert (r ≠ 0 ∨ q = 0)%nat as Hterm.
  { destruct (decide (r = 0%nat)) as [Hr0|]; [|by left]. right.
    destruct q as [|q]; [done|]. destruct Hwhole. exists q. lia. }
  rewrite Hc.
  rewrite (md4_update_terminal XX D (c ++ tail) a q r)
    by (done || rewrite ?length_app; lia).
  eexists. split; [reflexivity|].
  assert (length (D ++ take (64 * q) (c ++ tail)) = (64 * (a + q))%nat) as HD'.
  { rewrite length_app, length_take, length_app. lia. }
  pose proof (terminal_reference (D ++ take (64 * q) (c ++ tail))
                (drop (64 * q) (c ++ tail)) (a + q) r HD' Hr) as Href.
  cbv zeta in Href. destruct Href as [Hdone Href].
  { rewrite length_drop, length_app. lia. }
  split_and!; [done | | ].
  - apply length_buffer_terminal. cbn [absorbed buffer].
    by apply length_compress.
  - rewrite Href. f_equal. rewrite <- app_assoc. f_equal.
    rewrite take_drop_commute. rewrite <- Hc. rewrite take_app_length.
    rewrite take_app_le by lia. apply take_drop.
Qed.

(** ** Printing *)

Lemma printf_02x_append (b : Z) (s : string) :
  (printf_02x b ++ s)%string
  = String (hex_digit (b / 16)) (String (hex_digit (b `mod` 16)) s).
Proof. reflexivity. Qed.

Lemma append_empty (s : string) : (s ++ "")%string = s.
Proof. induction s as [|c s IH]; cbn; by rewrite ?IH. Qed.

Lemma append_assoc (s1 s2 s3 : string) :
  ((s1 ++ s2) ++ s3)%string = (s1 ++ (s2 ++ s3))%string.
Proof. induction s1 as [|c s1 IH]; cbn; by rewrite ?IH. Qed.

Lemma hex_app (l1 l2 : list Z) : hex (l1 ++ l2) = (hex l1 ++ hex l2)%string.
Proof.
  induction l1 as [|b l1 IH]; [done|].
  cbn [app hex fold_right]. fold (hex (l1 ++ l2)). fold (hex l1).
  by rewrite IH, append_assoc.
Qed.

Lemma length_hex (l : list Z) : String.length (hex l) = (2 * length l)%nat.
Proof.
  induction l as [|b l IH]; [done|].
  cbn [hex fold_right]. fold (hex l). rewrite printf_02x_append.
  cbn [String.length length]. rewrite IH. lia.
Qed.

(** The byte [(w >> j) & 0xFF] of a word is the byte [MD4Final] stores. *)
Lemma word_bytes (w : Z) :
  [Z.land (Z.shiftr w 0) 0xFF; Z.land (Z.shiftr w 8) 0xFF;
   Z.land (Z.shiftr w 16) 0xFF; Z.land (Z.shiftr w 24) 0xFF]
  = le_bytes 4 w.
Proof.
  change 0xFF with (Z.ones 8). rewrite !Z.land_ones by lia.
  rewrite !Z.shiftr_div_pow2 by lia. cbn [le_bytes].
  rewrite !Z.div_div by lia. rewrite Z.div_1_r. done.
Qed.

Lemma MD4Print_hex (MD : MD4_CTX) :
  MD4Print MD
  = hex (le_bytes 4 (buffer MD !!! 0%nat) ++ le_bytes 4 (buffer MD !!! 1%nat)
         ++ le_bytes 4 (buffer MD !!! 2%nat) ++ le_bytes 4 (buffer MD !!! 3%nat)).
Proof.
  rewrite <- !word_bytes.
  unfold MD4Print, for_loop. cbn [seq Nat.sub fold_left].
  cbn [app hex fold_right Z.of_nat Pos.of_succ_nat Pos.succ Z.mul Pos.mul Pos.add].
  rewrite !append_assoc. cbn [append]. rewrite append_empty. done.
Qed.

(** ** The shape of the context *)

Lemma count_loop_length (p : list Z) :
  ∀ (tmp : Z) (p' : list Z), count_loop tmp p = Some p' → length p' = length p.
Proof.
  induction p as [|b p IH]; intros tmp p' Hrun; cbn [count_loop] in Hrun.
  - destruct (tmp =? 0); by simplify_eq.
  - destruct (tmp =? 0); [by simplify_eq|].
    destruct (count_loop _ p) as [q|] eqn:Hq; [|done].
    cbn in Hrun. simplify_eq. cbn. by rewrite (IH _ _ Hq).
Qed.

(** The counter walking off its array is the end of [MD4Update]. *)
Lemma MD4Update_overflow (XX : list Z) (MD : MD4_CTX) (X : ptr) (n : Z) :
  done MD = 0 → count_loop n (count MD) = None → MD4Update XX MD X n = None.
Proof.
  intros Hdone Hcnt. cbv beta delta [MD4Update].
  rewrite (bool_decide_eq_true_2 (done MD = 0)) by done.
  rewrite andb_false_r. cbn [negb]. by rewrite Hcnt.
Qed.

(** Bits are read through the pointer whenever there are some to read. *)
Lemma MD4Update_null (XX : list Z) (MD : MD4_CTX) (n : Z) :
  done MD = 0 → 0 < n ≤ 512 → MD4Update XX MD NULL n = None.
Proof.
  intros Hdone Hn. cbv beta delta [MD4Update].
  rewrite (bool_decide_eq_true_2 (done MD = 0)) by done.
  rewrite andb_false_r. cbn [negb].
  destruct (count_loop n (count MD)) as [cnt|]; [|done]. cbn [mbind option_bind].
  case_bool_decide; [done|].
  rewrite (bool_decide_eq_false_2 (n > 512)) by lia.
  rewrite (bool_decide_eq_false_2 (n = 0)) by lia. done.
Qed.

(** What a feed of fewer than 512 bits leaves: the words come out of
    [MDblock], the counter is the one just updated. *)
Lemma MD4Update_partial_shape (XX : list Z) (MD : MD4_CTX) (X : ptr) (n : Z)
    (cnt : list Z) :
  done MD = 0 → 0 ≤ n < 512 → (n ≠ 0 → X ≠ NULL) → length (buffer MD) = 4%nat →
  count_loop n (count MD) = Some cnt →
  ∃ MD', MD4Update XX MD X n = Some (MD', [])
         ∧ is_words (buffer MD') ∧ length (buffer MD') = 4%nat
         ∧ count MD' = cnt ∧ done MD' = 1.
Proof.
  intros Hdone Hn HX Hbuf Hcnt.
  cbv beta delta [MD4Update].
  rewrite (bool_decide_eq_true_2 (done MD = 0)) by done.
  rewrite andb_false_r. cbn [negb]. rewrite Hcnt. cbn [mbind option_bind].
  rewrite (bool_decide_eq_false_2 (n = 512)) by lia.
  rewrite (bool_decide_eq_false_2 (n > 512)) by lia.
  cbv zeta.
  match goal with
  | |- context [mbind _ ?o] => assert (Hsome : ∃ XX', o = Some XX')
  end.
  { case_bool_decide; [by eexists|].
    destruct X as [Xb|]; [by eexists | by destruct HX]. }
  destruct Hsome as [XX' Hsome]. rewrite Hsome. clear Hsome. cbn [mbind option_bind].
  case_bool_decide.
  - rewrite MDblock_transform by done. cbn [buffer count].
    eexists. split; [reflexivity|]. cbn [buffer count done].
    split_and!; [apply is_words_transform | apply length_transform | done..].
  - rewrite (MDblock_transform (Build_MD4_CTX _ _ _)) by done.
    rewrite MDblock_transform by (cbn [buffer]; apply length_transform).
    cbn [buffer count].
    eexists. split; [reflexivity|]. cbn [buffer count done].
    split_and!; [apply is_words_transform | apply length_transform | done..].
Qed.

(** ** What is read of the input *)

Lemma boundary_byte_aligned (x y : Z) : boundary_byte x 0 = boundary_byte y 0.
Proof.
  unfold boundary_byte. change (8 - 0) with 8.
  rewrite !Z.div_small by (apply Z.mod_pos_bound; lia). done.
Qed.

(** The scratch block is made of the bits fed and of nothing else. *)
Lemma scratch_ext (Xb Xb' : list Z) (n : Z) :
  take (Z.to_nat (n / 8)) Xb = take (Z.to_nat (n / 8)) Xb' →
  (n `mod` 8 = 0
   ∨ (Xb !!! Z.to_nat (n / 8)) `mod` 2 ^ 8 / 2 ^ (8 - n `mod` 8)
     = (Xb' !!! Z.to_nat (n / 8)) `mod` 2 ^ 8 / 2 ^ (8 - n `mod` 8)) →
  scratch Xb n = scratch Xb' n.
Proof.
  intros Htake Hhigh. unfold scratch. rewrite Htake.
  assert (boundary_byte (Xb !!! Z.to_nat (n / 8)) (n `mod` 8)
          = boundary_byte (Xb' !!! Z.to_nat (n / 8)) (n `mod` 8)) as ->; [|done].
  destruct Hhigh as [->|Hhigh]; [apply boundary_byte_aligned|].
  unfold boundary_byte. by rewrite Hhigh.
Qed.

(** [MD4Update] depends on the bits it is fed only: not on what the
    scratch array held, not on the input past those bits. *)
Lemma MD4Update_ext (XX XX' : list Z) (MD : MD4_CTX) (Xb Xb' : list Z) (n : Z) :
  length XX = 64%nat → length XX' = 64%nat →
  length (buffer MD) = 4%nat → length (count MD) = 8%nat → 0 ≤ n →
  (n ≤ 512 →
   (Z.to_nat (n / 8) ≤ length Xb)%nat ∧ (Z.to_nat (n / 8) ≤ length Xb')%nat
   ∧ take (Z.to_nat (n / 8)) Xb = take (Z.to_nat (n / 8)) Xb'
   ∧ (n `mod` 8 = 0
      ∨ (Xb !!! Z.to_nat (n / 8)) `mod` 2 ^ 8 / 2 ^ (8 - n `mod` 8)
        = (Xb' !!! Z.to_nat (n / 8)) `mod` 2 ^ 8 / 2 ^ (8 - n `mod` 8))) →
  MD4Update XX MD (Some Xb) n = MD4Update XX' MD (Some Xb') n.
Proof.
  intros HXX HXX' Hbuf Hlen Hn Hread.
  destruct (decide (done MD = 0)) as [Hdone|Hdone].
  2: { destruct (decide (n = 0)) as [->|Hn0].
       - by rewrite !MD4Update_courtesy.
       - by rewrite !MD4Update_already_done. }
  destruct (count_loop n (count MD)) as [cnt|] eqn:Hcnt.
  2: { by rewrite !MD4Update_overflow. }
  pose proof (count_loop_length _ _ _ Hcnt) as Hlen'. rewrite Hlen in Hlen'.
  destruct (decide (n > 512)) as [Hbig|Hsmall].
  { by rewrite !(MD4Update_illegal _ _ _ _ cnt). }
  destruct Hread as (HXb & HXb' & Htake & Hhigh); [lia|].
  destruct (decide (n = 512)) as [->|Hne].
  - rewrite !(MD4Update_full _ _ _ cnt) by done.
    rewrite !MDblock_transform by done. cbn [buffer].
    change (Z.to_nat (512 / 8)) with 64%nat in Htake.
    rewrite <- (transform_take _ Xb 64), <- (transform_take _ Xb' 64) by done.
    by rewrite Htake.
  - destruct (decide (n = 0)) as [->|Hn0].
    + rewrite count_loop_0 in Hcnt. simplify_eq.
      by rewrite (MD4Update_empty XX MD _ []), (MD4Update_empty XX' MD _ []).
    + rewrite (MD4Update_partial XX MD Xb cnt), (MD4Update_partial XX' MD Xb' cnt)
        by (done || lia).
      unfold terminal. by rewrite (scratch_ext Xb Xb' n).
Qed.

(** [MD4Update] keeps the arrays of the context what their declarations
    say. *)
Lemma MD4Update_keeps (XX : list Z) (MD MD' : MD4_CTX) (X : ptr) (n : Z)
    (msgs : list message) :
  length (buffer MD) = 4%nat → 0 ≤ n →
  MD4Update XX MD X n = Some (MD', msgs) →
  length (buffer MD') = 4%nat ∧ length (count MD') = length (count MD)
  ∧ (is_bytes (count MD) → is_bytes (count MD'))
  ∧ (is_words (buffer MD) → is_words (buffer MD'))
  ∧ (done MD' = done MD ∨ done MD' = 1).
Proof.
  intros Hbuf Hn Hrun.
  destruct (decide (done MD = 0)) as [Hdone|Hdone].
  2: { destruct (decide (n = 0)) as [->|Hn0].
       - rewrite MD4Update_courtesy in Hrun by done. simplify_eq. tauto.
       - rewrite MD4Update_already_done in Hrun by done. simplify_eq. tauto. }
  destruct (count_loop n (count MD)) as [cnt|] eqn:Hcnt.
  2: { by rewrite MD4Update_overflow in Hrun. }
  pose proof (count_loop_length _ _ _ Hcnt) as Hlen.
  assert (is_bytes (count MD) → is_bytes cnt) as Hbytes.
  { intros Hb. by destruct (count_loop_shape _ _ _ Hb Hcnt). }
  destruct (decide (n > 512)) as [Hbig|Hsmall].
  { rewrite (MD4Update_illegal _ _ _ _ cnt) in Hrun by done. simplify_eq.
    cbn [buffer count done]. split_and!; [done.. | by left]. }
  destruct (decide (n ≠ 0 ∧ X = NULL)) as [[Hn0 ->]|HX].
  { rewrite MD4Update_null in Hrun by (done || lia). done. }
  destruct (decide (n = 512)) as [->|Hne].
  - destruct X as [Xb|]; [|destruct HX; by split].
    rewrite (MD4Update_full _ _ _ cnt) in Hrun by done.
    rewrite MDblock_transform in Hrun by done. simplify_eq.
    cbn [buffer count done].
    split_and!; [apply length_transform | done | done | | by left].
    intros _. apply is_words_transform.
  - destruct (MD4Update_partial_shape XX MD X n cnt)
      as (MD1 & Hrun1 & Hw & Hb & Hc & Hd); [done | lia | | done | done |].
    { intros Hn0 ->. apply HX. by split. }
    rewrite Hrun1 in Hrun. simplify_eq. split_and!; auto.
Qed.

Lemma s32_shape (z : Z) :
  0 ≤ z → s32 z ≤ z ∧ - 2 ^ 31 ≤ s32 z < 2 ^ 31 ∧ s32 (z * 8) `mod` 8 = 0.
Proof.
  intros Hz. unfold s32. cbv zeta.
  pose proof (Z.mod_pos_bound z (2 ^ 32) ltac:(lia)).
  pose proof (Z.mod_le z (2 ^ 32) Hz ltac:(lia)).
  split_and!.
  1-3: destruct (Z.ltb_spec (z `mod` 2 ^ 32) (2 ^ 31)); lia.
  assert ((z * 8) `mod` 2 ^ 32 = 8 * (z `mod` 2 ^ 29)) as ->.
  { change (2 ^ 32) with (8 * 2 ^ 29). rewrite (Z.mul_comm z 8).
    rewrite Z.mul_mod_distr_l by lia. done. }
  destruct (Z.ltb_spec (8 * z `mod` 2 ^ 29) (2 ^ 31)).
  - rewrite Z.mul_comm. apply Z.mod_mul. lia.
  - replace (8 * z `mod` 2 ^ 29 - 2 ^ 32) with ((z `mod` 2 ^ 29 - 2 ^ 29) * 8) by lia.
    apply Z.mod_mul. lia.
Qed.

Lemma take_agree (l l' : list Z) (k m : nat) :
  take m l = take m l' → (k ≤ m)%nat → take k l = take k l'.
Proof.
  intros Htake Hk.
  rewrite <- (Nat.min_l k m), <- !take_take by done. by rewrite Htake.
Qed.

(** The loop of [md4_update] reads the bytes it counts and no other. *)
Lemma md4_update_loop_ext (XX XX' : list Z) (fuel : nat) :
  length XX = 64%nat → length XX' = 64%nat →
  ∀ (MD : MD4_CTX) (l l' : list Z) (m : nat) (mdlen : Z) (out : list message),
    length (buffer MD) = 4%nat → length (count MD) = 8%nat →
    take m l = take m l' → (m ≤ length l)%nat → (m ≤ length l')%nat →
    mdlen ≤ 8 * Z.of_nat m →
    (md4_update_loop fuel XX MD (Some l) mdlen out = None
     ∧ md4_update_loop fuel XX' MD (Some l') mdlen out = None)
    ∨ ∃ MD1 l1 l1' m1 mdlen1 out1,
        md4_update_loop fuel XX MD (Some l) mdlen out = Some (MD1, Some l1, mdlen1, out1)
        ∧ md4_update_loop fuel XX' MD (Some l') mdlen out
          = Some (MD1, Some l1', mdlen1, out1)
        ∧ length (buffer MD1) = 4%nat ∧ length (count MD1) = 8%nat
        ∧ take m1 l1 = take m1 l1' ∧ (m1 ≤ length l1)%nat ∧ (m1 ≤ length l1')%nat
        ∧ mdlen1 ≤ 8 * Z.of_nat m1 ∧ mdlen1 ≤ 512
        ∧ mdlen1 `mod` 8 = mdlen `mod` 8
        ∧ (mdlen < 0 → mdlen1 = mdlen) ∧ (0 ≤ mdlen → 0 ≤ mdlen1).
Proof.
  intros HXX HXX'.
  induction fuel as [|fuel IH]; intros MD l l' m mdlen out Hbuf Hlen Htake Hl Hl' Hm;
    cbn [md4_update_loop]; case_bool_decide as Hbig.
  - by left.
  - right. exists MD, l, l', m, mdlen, out. split_and!; (done || lia).
  - assert (MD4Update XX MD (Some l) 512 = MD4Update XX' MD (Some l') 512) as Heq.
    { apply MD4Update_ext; [done.. | lia |]. intros _.
      change (Z.to_nat (512 / 8)) with 64%nat.
      split_and!; [lia | lia | apply (take_agree _ _ _ m); (done || lia) | by left]. }
    rewrite <- Heq.
    destruct (MD4Update XX MD (Some l) 512) as [[MD' msgs]|] eqn:Hrun; [|by left].
    cbn [mbind option_bind ptr_add fmap option_fmap option_map].
    destruct (MD4Update_keeps XX MD MD' (Some l) 512 msgs Hbuf ltac:(lia) Hrun)
      as (Hbuf' & Hlen' & _).
    destruct (IH MD' (drop 64 l) (drop 64 l') (m - 64)%nat (mdlen - 512) (out ++ msgs))
      as [[H1 H2]|(MD1 & l1 & l1' & m1 & mdlen1 & out1 & H1 & H2 & Hrest)];
      [done | congruence | | rewrite length_drop; lia | rewrite length_drop; lia | lia
       | left; by rewrite H1, H2 | ].
    { rewrite !take_drop_commute. replace (64 + (m - 64))%nat with m by lia.
      by rewrite Htake. }
    right. exists MD1, l1, l1', m1, mdlen1, out1. rewrite H1, H2.
    destruct Hrest as (? & ? & ? & ? & ? & ? & ? & Hmod & ? & ?).
    split_and!; try (done || lia).
    rewrite Hmod. replace (mdlen - 512) with (mdlen + (-64) * 8) by lia.
    apply Z.mod_add. lia.
  - right. exists MD, l, l', m, mdlen, out. split_and!; (done || lia).
Qed.

(** ** A null input *)

(** A feed of bytes through [NULL] on an unfinished context reads through
    [NULL]. *)
Lemma md4_update_null (XX : list Z) (MD : MD4_CTX) (len : Z) :
  done MD = 0 → 0 < len < 2 ^ 28 →
  md4_update XX (Build_PPP_MD_CTX (Some MD)) NULL len = None.
Proof.
  intros Hdone Hlen. unfold md4_update. cbn [priv mbind option_bind].
  rewrite s32_small by lia.
  destruct (decide (len * 8 > 512)) as [Hbig|Hsmall].
  - destruct (Z.to_nat (len * 8)) as [|fuel] eqn:Hfuel; [lia|].
    cbn [md4_update_loop]. rewrite bool_decide_eq_true_2 by done.
    rewrite MD4Update_null by (done || lia). done.
  - destruct (Z.to_nat (len * 8)) as [|fuel]; cbn [md4_update_loop];
      rewrite bool_decide_eq_false_2 by done; cbn [mbind option_bind];
      rewrite u32_small by lia; rewrite MD4Update_null by (done || lia); done.
Qed.

(** ** The macros, bit by bit *)

Lemma testbit_u32 (x i : Z) :
  0 ≤ i → Z.testbit (u32 x) i = bool_decide (i < 32) && Z.testbit x i.
Proof.
  intros Hi. unfold u32. case_bool_decide.
  - by rewrite Z.mod_pow2_bits_low by lia.
  - by rewrite Z.mod_pow2_bits_high by lia.
Qed.

Lemma testbit_not32 (x i : Z) :
  0 ≤ i < 32 → Z.testbit (not32 x) i = negb (Z.testbit x i).
Proof.
  intros Hi. unfold not32. rewrite testbit_u32 by lia.
  rewrite bool_decide_eq_true_2 by lia. cbn [andb]. apply Z.lnot_spec. lia.
Qed.

Lemma testbit_rot (x s i : Z) :
  0 < s < 32 → 0 ≤ i →
  Z.testbit (rot x s) i
  = bool_decide (i < 32) && Z.testbit (u32 x) ((i - s) `mod` 32).
Proof.
  intros Hs Hi. unfold rot. cbv zeta.
  rewrite Z.lor_spec, testbit_u32, Z.shiftl_spec, Z.shiftr_spec by lia.
  case_bool_decide as Hlt; cbn [andb].
  - destruct (decide (s ≤ i)) as [Hge|Hless].
    + rewrite (Z.mod_small (i - s)) by lia.
      rewrite (testbit_u32 x (i + (32 - s))) by lia.
      rewrite bool_decide_eq_false_2 by lia. cbn [andb]. by rewrite orb_false_r.
    + rewrite (Z.testbit_neg_r _ (i - s)) by lia. cbn [orb]. f_equal.
      replace (i - s) with (i + (32 - s) + (-1) * 32) by lia.
      rewrite Z.mod_add by lia. rewrite Z.mod_small by lia. done.
  - rewrite (testbit_u32 x (i + (32 - s))) by lia.
    rewrite bool_decide_eq_false_2 by lia. done.
Qed.

Lemma u32_fixed (x : Z) :
  (∀ i, 32 ≤ i → Z.testbit x i = false) → 0 ≤ x < 2 ^ 32.
Proof.
  intros Hhigh. assert (x = u32 x) as ->.
  { apply Z.bits_inj'. intros i Hi. rewrite testbit_u32 by done.
    case_bool_decide; [done|]. cbn [andb]. apply Hhigh. lia. }
  apply Z.mod_pos_bound. lia.
Qed.

(** ** The adapter on any unfinished context *)

(** One block through the engine. *)
Lemma MD4Update_block (XX : list Z) (MD : MD4_CTX) (l : list Z) :
  MD4_CTX_ok MD → done MD = 0 → le_value (count MD) + 512 < 2 ^ 64 →
  ∃ MD', MD4Update XX MD (Some l) 512 = Some (MD', [])
         ∧ MD4_CTX_ok MD' ∧ done MD' = 0
         ∧ le_value (count MD') = le_value (count MD) + 512.
Proof.
  intros (Hbuf & Hlen & Hbytes) Hdone Hfit.
  destruct (count_loop_spec (count MD) 512 Hbytes)
    as (cnt & Hcnt & Hlen' & Hbytes' & Hval); [lia | by rewrite Hlen |].
  rewrite (MD4Update_full _ _ _ cnt) by done.
  rewrite MDblock_transform by done. cbn [buffer count done].
  eexists. split; [reflexivity|]. cbn [buffer count done].
  split_and!; [|done..].
  unfold MD4_CTX_ok. cbn [buffer count].
  split_and!; [apply length_transform | congruence | done].
Qed.

(** The loop takes the blocks it can, and leaves from 1 to 512 bits of a
    feed that is not empty. *)
Lemma md4_update_loop_runs (XX : list Z) (fuel : nat) :
  ∀ (MD : MD4_CTX) (l : list Z) (mdlen : Z) (out : list message),
    MD4_CTX_ok MD → done MD = 0 →
    le_value (count MD) + mdlen < 2 ^ 64 → mdlen ≤ 512 * (Z.of_nat fuel + 1) →
    ∃ MD1 l1 k,
      md4_update_loop fuel XX MD (Some l) mdlen out
      = Some (MD1, Some l1, mdlen - 512 * Z.of_nat k, out)
      ∧ MD4_CTX_ok MD1 ∧ done MD1 = 0
      ∧ le_value (count MD1) = le_value (count MD) + 512 * Z.of_nat k
      ∧ mdlen - 512 * Z.of_nat k ≤ 512
      ∧ (k = 0%nat ∨ 0 < mdlen - 512 * Z.of_nat k).
Proof.
  induction fuel as [|fuel IH]; intros MD l mdlen out Hok Hdone Hfit Hfuel;
    cbn [md4_update_loop]; case_bool_decide as Hbig.
  - lia.
  - exists MD, l, 0%nat. rewrite Z.sub_0_r. split_and!; (done || lia || by left).
  - destruct (MD4Update_block XX MD l Hok Hdone) as (MD' & -> & Hok' & Hdone' & Hval);
      [lia|].
    cbn [mbind option_bind ptr_add fmap option_fmap option_map].
    rewrite app_nil_r.
    destruct (IH MD' (drop 64 l) (mdlen - 512) out Hok' Hdone')
      as (MD1 & l1 & k & -> & Hok1 & Hdone1 & Hval1 & Hsmall & Hpos); [lia | lia |].
    exists MD1, l1, (Datatypes.S k).
    replace (mdlen - 512 * Z.of_nat (Datatypes.S k))
      with (mdlen - 512 - 512 * Z.of_nat k) by lia.
    split_and!; [done | done | done | lia | lia | right; lia].
  - exists MD, l, 0%nat. rewrite Z.sub_0_r. split_and!; (done || lia || by left).
Qed.

(** [md4_update] on an unfinished context, with a buffer: it returns 1,
    prints nothing, counts the bits, and finishes the context unless the
    length is a positive multiple of 64. *)
Lemma md4_update_runs (XX : list Z) (MD : MD4_CTX) (l : list Z) (len : Z) :
  MD4_CTX_ok MD → done MD = 0 → 0 ≤ len < 2 ^ 28 →
  le_value (count MD) + 8 * len < 2 ^ 64 →
  ∃ MD', md4_update XX (Build_PPP_MD_CTX (Some MD)) (Some l) len
         = Some (1, Build_PPP_MD_CTX (Some MD'), [])
         ∧ MD4_CTX_ok MD'
         ∧ le_value (count MD') = le_value (count MD) + 8 * len
         ∧ (done MD' = 0 ∨ done MD' = 1)
         ∧ (done MD' = 0 ↔ 0 < len ∧ len `mod` 64 = 0).
Proof.
  intros Hok Hdone Hlen Hfit. unfold md4_update. cbn [priv mbind option_bind].
  rewrite s32_small by lia.
  destruct (md4_update_loop_runs XX (Z.to_nat (len * 8)) MD l (len * 8) [] Hok Hdone)
    as (MD1 & l1 & k & -> & Hok1 & Hdone1 & Hval1 & Hsmall & Hpos); [lia | lia |].
  cbn [mbind option_bind].
  assert (0 ≤ len * 8 - 512 * Z.of_nat k) as Hrest by (destruct Hpos; lia).
  rewrite u32_small by lia.
  set (n := len * 8 - 512 * Z.of_nat k) in *.
  destruct (decide (n = 512)) as [Hn|Hn].
  - rewrite Hn. destruct (MD4Update_block XX MD1 l1 Hok1 Hdone1)
      as (MD' & -> & Hok' & Hdone' & Hval'); [lia|].
    exists MD'. split_and!; [done | done | lia | by left |].
    split; [intros _|done]. split; [lia|].
    replace len with (0 + (1 + Z.of_nat k) * 64) by lia. by rewrite Z.mod_add.
  - destruct Hok1 as (Hbuf1 & Hlen1 & Hbytes1).
    destruct (count_loop_spec (count MD1) n Hbytes1)
      as (cnt & Hcnt & Hlen' & Hbytes' & Hval); [lia | rewrite Hlen1; lia |].
    destruct (MD4Update_partial_shape XX MD1 (Some l1) n cnt)
      as (MD' & -> & Hw & Hb & Hc & Hd); [done | lia | done.. |].
    exists MD'. subst cnt.
    split_and!; [done | unfold MD4_CTX_ok; split_and!; (done || congruence) | lia
                 | by right |].
    split; [intros Hd'; congruence|]. intros [Hpos' Hmod].
    exfalso. apply Hn.
    destruct Hpos as [->|Hpos]; [|].
    + assert (len * 8 ≤ 512) as Hle by lia.
      assert (len = 64 * (len / 64)) as Hq
        by (pose proof (Z.div_mod len 64 ltac:(lia)); lia).
      assert (len / 64 = 1) by lia. lia.
    + assert (len = 64 * (len / 64)) as Hq
        by (pose proof (Z.div_mod len 64 ltac:(lia)); lia).
      assert (len / 64 = Z.of_nat k + 1) by lia. lia.
Qed.

(** * Further properties *)

(** X1.  [MD4Update] depends on the bits it is fed and on nothing else of
    its input: two calls on the same context with [n] bits, [0 <= n <= 512],
    give the same result as soon as the two inputs agree on their first
    [n / 8] bytes and, when [n] is not a multiple of 8, on the [n mod 8]
    high-order bits of the next byte.  What the scratch array held and
    what follows the bits in memory (the byte [X[byte]] that is read even
    when [n] is a multiple of 8 included) make no difference. *)
Theorem X1_MD4Update_reads_its_bits_only (XX XX' : list Z) (MD : MD4_CTX)
    (Xb Xb' : list Z) (n : Z) :
  length XX = 64%nat → length XX' = 64%nat →
  length (buffer MD) = 4%nat → length (count MD) = 8%nat →
  0 ≤ n ≤ 512 →
  (Z.to_nat (n / 8) ≤ length Xb)%nat → (Z.to_nat (n / 8) ≤ length Xb')%nat →
  take (Z.to_nat (n / 8)) Xb = take (Z.to_nat (n / 8)) Xb' →
  (n `mod` 8 = 0
   ∨ (Xb !!! Z.to_nat (n / 8)) `mod` 2 ^ 8 / 2 ^ (8 - n `mod` 8)
     = (Xb' !!! Z.to_nat (n / 8)) `mod` 2 ^ 8 / 2 ^ (8 - n `mod` 8)) →
  MD4Update XX MD (Some Xb) n = MD4Update XX' MD (Some Xb') n.
Proof.
  intros HXX HXX' Hbuf Hlen Hn HXb HXb' Htake Hhigh.
  apply MD4Update_ext; [done.. | lia | done].
Qed.

Lemma X1_MD4Update_reads_its_bits_only_witness :
  MD4Update (replicate 64 0) (MD4Init calloc_MD4_CTX) (Some [0x61; 0x62; 0x6f]) 20
  = MD4Update (replicate 64 9) (MD4Init calloc_MD4_CTX) (Some [0x61; 0x62; 0x60; 1]) 20.
Proof.
  refine (X1_MD4Update_reads_its_bits_only (replicate 64 0) (replicate 64 9)
            (MD4Init calloc_MD4_CTX) [0x61; 0x62; 0x6f] [0x61; 0x62; 0x60; 1] 20
            eq_refl eq_refl eq_refl eq_refl _ _ _ eq_refl _);
    [lia | vm_compute; lia | vm_compute; lia | right; reflexivity].
Defined.

(** X2.  [md4_update] depends on the context and on the [len] bytes it is
    given only, whatever [len] is: what lies in memory after them and what
    the scratch array of the engine held do not show in its result. *)
Theorem X2_md4_update_reads_len_bytes_only (XX XX' : list Z) (MD : MD4_CTX)
    (c t t' : list Z) :
  length XX = 64%nat → length XX' = 64%nat →
  length (buffer MD) = 4%nat → length (count MD) = 8%nat →
  md4_update XX (Build_PPP_MD_CTX (Some MD)) (Some (c ++ t)) (Z.of_nat (length c))
  = md4_update XX' (Build_PPP_MD_CTX (Some MD)) (Some (c ++ t')) (Z.of_nat (length c)).
Proof.
  intros HXX HXX' Hbuf Hlen. unfold md4_update. cbn [priv mbind option_bind].
  destruct (s32_shape (Z.of_nat (length c)) ltac:(lia)) as (_ & _ & Hmod8).
  destruct (s32_shape (Z.of_nat (length c) * 8) ltac:(lia)) as (Hle & Hrange & _).
  set (mdlen := s32 (Z.of_nat (length c) * 8)) in *.
  destruct (md4_update_loop_ext XX XX' (Z.to_nat mdlen) HXX HXX' MD (c ++ t) (c ++ t')
              (length c) mdlen [] Hbuf Hlen)
    as [[-> ->]|(MD1 & l1 & l1' & m1 & mdlen1 & out1 & -> & -> & Hbuf1 & Hlen1
                 & Htake & Hl1 & Hl1' & Hm1 & Hsmall & Hmod & Hneg & Hpos)];
    [by rewrite !take_app_length | rewrite length_app; lia | rewrite length_app; lia
     | lia | done |].
  cbn [mbind option_bind].
  assert (MD4Update XX MD1 (Some l1) (u32 mdlen1)
          = MD4Update XX' MD1 (Some l1') (u32 mdlen1)) as ->; [|done].
  unfold u32. pose proof (Z.mod_pos_bound mdlen1 (2 ^ 32) ltac:(lia)).
  apply MD4Update_ext; [done.. | lia |]. intros Hn.
  assert (0 ≤ mdlen1) as Hpos1.
  { destruct (decide (0 ≤ mdlen)); [by apply Hpos|].
    rewrite Hneg in Hn by lia.
    pose proof (Z.mod_add mdlen 1 (2 ^ 32) ltac:(lia)) as Hadd.
    rewrite (Z.mod_small (mdlen + 1 * 2 ^ 32)) in Hadd by lia. lia. }
  rewrite Z.mod_small by lia.
  assert (Z.to_nat (mdlen1 / 8) ≤ m1)%nat as Hbyte.
  { apply Nat2Z.inj_le. rewrite Z2Nat.id by (apply Z.div_pos; lia).
    apply Z.div_le_upper_bound; lia. }
  split_and!; [lia | lia | by apply (take_agree _ _ _ m1) | left; congruence].
Qed.

Lemma X2_md4_update_reads_len_bytes_only_witness :
  md4_update (replicate 64 0) (Build_PPP_MD_CTX (Some (MD4Init calloc_MD4_CTX)))
    (Some (replicate 70 0x61 ++ [])) (Z.of_nat (length (replicate 70 0x61)))
  = md4_update (replicate 64 9) (Build_PPP_MD_CTX (Some (MD4Init calloc_MD4_CTX)))
      (Some (replicate 70 0x61 ++ [1; 2; 3])) (Z.of_nat (length (replicate 70 0x61))).
Proof.
  exact (X2_md4_update_reads_len_bytes_only (replicate 64 0) (replicate 64 9)
           (MD4Init calloc_MD4_CTX) (replicate 70 0x61) [] [1; 2; 3]
           eq_refl eq_refl eq_refl eq_refl).
Defined.

(** X3.  Chunks made of whole 64-byte blocks, fed to a new context, leave
    it unfinished, with the blocks compressed in order from the initial
    state and their bits counted; nothing is printed, and the scratch
    array is not involved.  The chunks may add up to more than one call
    takes. *)
Theorem X3_whole_chunks_absorbed (XX : list Z) (wholes : list (list Z)) :
  Forall whole wholes → Forall (λ c, Z.of_nat (length c) < 2 ^ 28) wholes →
  8 * Z.of_nat (length (concat wholes)) < 2 ^ 64 →
  feed XX (Build_PPP_MD_CTX (Some (MD4Init calloc_MD4_CTX))) (calls_of wholes)
  = Some (Build_PPP_MD_CTX (Some
      (Build_MD4_CTX
         (Reference.compress (length (concat wholes) / 64) Reference.initial
            (concat wholes))
         (le_bytes 8 (8 * Z.of_nat (length (concat wholes)))) 0)), [])
  ∧ le_value (le_bytes 8 (8 * Z.of_nat (length (concat wholes))))
    = 8 * Z.of_nat (length (concat wholes)).
Proof.
  intros Hwhole Hsmall Hfit. split.
  - exact (feed_wholes XX wholes [] 0 eq_refl Hwhole Hsmall Hfit).
  - apply le_value_le_bytes. change (8 * Z.of_nat 8) with 64. lia.
Qed.

Lemma X3_whole_chunks_absorbed_witness :
  feed [] (Build_PPP_MD_CTX (Some (MD4Init calloc_MD4_CTX)))
    (calls_of [replicate 64 1; replicate 128 2])
  = Some (Build_PPP_MD_CTX (Some
      (Build_MD4_CTX
         (Reference.compress
            (length (concat [replicate 64 1; replicate 128 2]) / 64) Reference.initial
            (concat [replicate 64 1; replicate 128 2]))
         (le_bytes 8 (8 * Z.of_nat (length (concat [replicate 64 1; replicate 128 2]))))
         0)), []).
Proof.
  assert (Hwhole : Forall whole [replicate 64 1; replicate 128 2]).
  { repeat constructor; [by exists 0%nat | by exists 1%nat]. }
  assert (Hsmall : Forall (λ c : list Z, Z.of_nat (length c) < 2 ^ 28)
                     [replicate 64 1; replicate 128 2]).
  { repeat constructor. }
  exact (proj1 (X3_whole_chunks_absorbed [] [replicate 64 1; replicate 128 2]
                  Hwhole Hsmall eq_refl)).
Defined.

(** X4.  On a well-formed, unfinished context, given fewer than 2^28
    bytes that the 64-bit counter can take, [md4_update] returns 1 and
    prints nothing; the context stays well formed, its counter goes up by
    [8 * len], and it is left unfinished exactly when the length is a
    positive multiple of 64.  [MD4Update] copies [X[0..byte]], one byte
    more than it uses, so unless the length is 0 or a positive multiple
    of 64 the byte after the data is read: the buffer is taken to hold
    it. *)
Theorem X4_md4_update_counts_and_finishes (XX : list Z) (MD : MD4_CTX) (c t : list Z) :
  MD4_CTX_ok MD → done MD = 0 → Z.of_nat (length c) < 2 ^ 28 →
  le_value (count MD) + 8 * Z.of_nat (length c) < 2 ^ 64 →
  c = [] ∨ whole c ∨ t ≠ [] →
  ∃ MD',
    md4_update XX (Build_PPP_MD_CTX (Some MD)) (Some (c ++ t)) (Z.of_nat (length c))
    = Some (1, Build_PPP_MD_CTX (Some MD'), [])
    ∧ MD4_CTX_ok MD'
    ∧ le_value (count MD') = le_value (count MD) + 8 * Z.of_nat (length c)
    ∧ (done MD' = 0 ∨ done MD' = 1)
    ∧ (done MD' = 0 ↔ whole c).
Proof.
  intros Hok Hdone Hsmall Hfit _.
  destruct (md4_update_runs XX MD (c ++ t) (Z.of_nat (length c)) Hok Hdone)
    as (MD' & Hrun & Hok' & Hval & Hd & Hiff); [lia | done |].
  exists MD'. split_and!; [done.. |].
  rewrite Hiff. unfold whole. split.
  - intros [Hpos Hmod].
    pose proof (Z.div_mod (Z.of_nat (length c)) 64 ltac:(lia)) as Hq.
    exists (Z.to_nat (Z.of_nat (length c) / 64) - 1)%nat. lia.
  - intros [j Hj]. split; [lia|].
    rewrite Hj. replace (Z.of_nat (64 * Datatypes.S j)) with (0 + Z.of_nat (Datatypes.S j) * 64) by lia.
    by rewrite Z.mod_add.
Qed.

Lemma X4_md4_update_counts_and_finishes_witness :
  ∃ MD',
    md4_update [] (Build_PPP_MD_CTX (Some (MD4Init calloc_MD4_CTX)))
      (Some (replicate 70 0x61 ++ [1])) (Z.of_nat (length (replicate 70 0x61)))
    = Some (1, Build_PPP_MD_CTX (Some MD'), [])
    ∧ MD4_CTX_ok MD'
    ∧ le_value (count MD')
      = le_value (count (MD4Init calloc_MD4_CTX))
        + 8 * Z.of_nat (length (replicate 70 0x61))
    ∧ (done MD' = 0 ∨ done MD' = 1)
    ∧ (done MD' = 0 ↔ whole (replicate 70 0x61)).
Proof.
  assert (Hok : MD4_CTX_ok (MD4Init calloc_MD4_CTX)).
  { split_and!; [reflexivity | reflexivity |]. repeat constructor; done. }
  assert (Hread : replicate 70 0x61 = [] ∨ whole (replicate 70 0x61) ∨ [1] ≠ []).
  { right. right. discriminate. }
  exact (X4_md4_update_counts_and_finishes [] (MD4Init calloc_MD4_CTX)
           (replicate 70 0x61) [1] Hok eq_refl eq_refl eq_refl Hread).
Defined.

(** X5.  The first chunk that is not a positive multiple of 64 bytes long
    (an empty one included) ends the message: whatever calls of
    [md4_update] follow, with any pointer and any length, the digest is
    that of the chunks up to and including that one. *)
Theorem X5_feeds_after_the_last_chunk (XX : list Z) (wholes : list (list Z))
    (c : list Z) (rest : list (ptr * Z)) :
  length XX = 64%nat → Forall whole wholes → ¬ whole c →
  Z.of_nat (length (concat wholes ++ c)) < 2 ^ 28 →
  digest_of XX (calls_of (wholes ++ [c]) ++ rest)
  = Some (Reference.md4 (concat wholes ++ c)).
Proof.
  intros HXX Hwhole Hc Hlen. rewrite length_app in Hlen.
  destruct (length_concat_wholes wholes Hwhole) as [a Ha].
  rewrite digest_of_unfold. unfold calls_of. rewrite fmap_app. fold (calls_of wholes).
  rewrite <- app_assoc, feed_app.
  rewrite (feed_wholes XX wholes [] 0 eq_refl Hwhole); cbn [app].
  2: { apply list.Forall_forall. intros x Hx%length_concat_elem. lia. }
  2: { lia. }
  cbn [mbind option_bind fmap list_fmap app feed].
  destruct (md4_update_last XX (concat wholes) c [] a Ha HXX Hc)
    as (MD & Hrun & Hdone & Hbuf & Hbytes); [lia | lia |].
  rewrite app_nil_r in Hrun. rewrite Hrun. cbn [mbind option_bind].
  destruct (feed_finished XX MD rest) as [msgs ->]; [by rewrite Hdone|].
  cbn [mbind option_bind]. unfold md4_final. cbn [priv mbind option_bind].
  rewrite MD4Final_finished by (by rewrite Hdone). cbn [mbind option_bind].
  by rewrite state_bytes_4, Hbytes.
Qed.

Lemma X5_feeds_after_the_last_chunk_witness :
  digest_of (replicate 64 0)
    (calls_of ([replicate 64 1] ++ [[2; 3]]) ++ [(Some [4; 5; 6], 3); (NULL, 7)])
  = Some (Reference.md4 (concat [replicate 64 1] ++ [2; 3])).
Proof.
  assert (Hwhole : Forall whole [replicate 64 1]).
  { repeat constructor. by exists 0%nat. }
  assert (Hc : ¬ whole [2; 3]).
  { intros [j Hj]. cbn in Hj. lia. }
  exact (X5_feeds_after_the_last_chunk (replicate 64 0) [replicate 64 1] [2; 3]
           [(Some [4; 5; 6], 3); (NULL, 7)] eq_refl Hwhole Hc eq_refl).
Defined.

(** X6.  [MD4Init] resets: whatever a context holds (that of a finished
    digest, say), it is left with the four initial words, a counter of
    zero bits and [done] cleared. *)
Theorem X6_MD4Init_resets (MD : MD4_CTX) :
  length (buffer MD) = 4%nat → length (count MD) = 8%nat →
  MD4Init MD = Build_MD4_CTX [I0; I1; I2; I3] (replicate 8 0) 0
  ∧ le_value (count (MD4Init MD)) = 0.
Proof.
  destruct MD as [b c d]. cbn [buffer count]. intros Hb Hc.
  do 4 (destruct b as [|? b]; [done|]). destruct b; [|done].
  do 8 (destruct c as [|? c]; [done|]). destruct c; [|done].
  split; reflexivity.
Qed.

Lemma X6_MD4Init_resets_witness :
  MD4Init (Build_MD4_CTX [1; 2; 3; 4] (replicate 8 5) 1)
  = Build_MD4_CTX [I0; I1; I2; I3] (replicate 8 0) 0.
Proof.
  exact (proj1 (X6_MD4Init_resets (Build_MD4_CTX [1; 2; 3; 4] (replicate 8 5) 1)
                  eq_refl eq_refl)).
Defined.

(** X7.  [md4_clean] leaves no engine context behind and may be called
    again; feeding or finishing after it reads through a null pointer. *)
Theorem X7_md4_clean_releases (XX : list Z) (ctx : PPP_MD_CTX) (data : ptr) (len : Z) :
  priv (md4_clean ctx) = None
  ∧ md4_clean (md4_clean ctx) = md4_clean ctx
  ∧ md4_update XX (md4_clean ctx) data len = None
  ∧ md4_final XX (md4_clean ctx) = None.
Proof. destruct ctx as [[MD|]]; split_and!; reflexivity. Qed.

(** X8.  [md4_init] fails, returning 0 and leaving its argument alone,
    when it is given no context or finds no memory; otherwise it returns 1
    with a context that is well formed and unfinished, holds the four
    initial words and has counted no bit. *)
Theorem X8_md4_init_context (ctx : option PPP_MD_CTX) (c : PPP_MD_CTX) (heap : bool) :
  md4_init None heap = (0, None)
  ∧ md4_init ctx false = (0, ctx)
  ∧ ∃ MD, md4_init (Some c) true = (1, Some (Build_PPP_MD_CTX (Some MD)))
          ∧ MD4_CTX_ok MD ∧ is_words (buffer MD) ∧ done MD = 0
          ∧ buffer MD = [I0; I1; I2; I3] ∧ le_value (count MD) = 0.
Proof.
  split_and!; [done | by destruct ctx |].
  eexists. split; [reflexivity|].
  split_and!; [split_and!; [reflexivity | reflexivity |] | | reflexivity..].
  - apply list.Forall_forall. intros x Hx. vm_compute in Hx.
    apply list_elem_of_In in Hx. cbn in Hx. lia.
  - apply list.Forall_forall. intros x Hx. vm_compute in Hx.
    apply list_elem_of_In in Hx. cbn in Hx. lia.
Qed.

(** X9.  [MD4Final] never fails and prints nothing, and [MD4Print] on the
    context it leaves prints the 16 bytes it stored, two lowercase
    hexadecimal digits each, in the order stored: 32 characters. *)
Theorem X9_MD4Print_digest (XX : list Z) (MD : MD4_CTX) :
  ∃ out MD',
    MD4Final XX MD = Some (out, MD', [])
    ∧ MD4Print MD' = hex out
    ∧ String.length (MD4Print MD') = 32%nat.
Proof.
  assert (∃ MD', MD4Update XX MD NULL 0 = Some (MD', [])) as [MD' Hrun].
  { destruct (decide (done MD = 0)) as [Hdone|Hdone].
    - destruct (MD4Update_count XX MD NULL 0 (count MD) Hdone)
        as (MD' & Hrun & _); [lia | done | apply count_loop_0 |]. by exists MD'.
    - exists MD. by apply MD4Update_courtesy. }
  unfold MD4Final. rewrite Hrun. cbn [mbind option_bind].
  rewrite MD4Final_buf. eexists _, MD'. split; [reflexivity|].
  rewrite MD4Print_hex. split; [done|].
  rewrite length_hex, !length_app, !length_le_bytes. done.
Qed.

(** X10.  The bit counter does not wrap around: on a well-formed context
    the loop that adds [n] to it steps past the eighth byte exactly when
    the sum does not fit in 64 bits, and [MD4Update] on an unfinished
    context is then undefined. *)
Theorem X10_counter_overflow (XX : list Z) (MD : MD4_CTX) (X : ptr) (n : Z) :
  MD4_CTX_ok MD → done MD = 0 → 0 ≤ n ≤ 2 ^ 32 - 2 ^ 8 →
  (count_loop n (count MD) = None ↔ 2 ^ 64 ≤ le_value (count MD) + n)
  ∧ (2 ^ 64 ≤ le_value (count MD) + n → MD4Update XX MD X n = None).
Proof.
  intros (Hbuf & Hlen & Hbytes) Hdone Hn.
  assert (2 ^ 64 ≤ le_value (count MD) + n → count_loop n (count MD) = None) as Hover.
  { intros Hsum. apply count_loop_overflow; [done | done |].
    rewrite Hlen. exact Hsum. }
  split_and!.
  - split; [|done]. intros Hnone.
    destruct (decide (2 ^ 64 ≤ le_value (count MD) + n)) as [|Hfit]; [done|].
    destruct (count_loop_spec (count MD) n Hbytes) as (cnt & Hcnt & _);
      [done | rewrite Hlen; change (8 * Z.of_nat 8) with 64; lia | congruence].
  - intros Hsum. apply MD4Update_overflow; [done | by apply Hover].
Qed.

Lemma X10_counter_overflow_witness :
  MD4Update [] (Build_MD4_CTX [I0; I1; I2; I3] (replicate 8 255) 0) NULL 8 = None.
Proof.
  assert (Hok : MD4_CTX_ok (Build_MD4_CTX [I0; I1; I2; I3] (replicate 8 255) 0)).
  { split_and!; [reflexivity | reflexivity |]. repeat constructor; done. }
  refine (proj2 (X10_counter_overflow [] (Build_MD4_CTX [I0; I1; I2; I3] (replicate 8 255) 0)
                   NULL 8 Hok eq_refl _) _); [lia | vm_compute; discriminate].
Defined.

(** X11.  From 2^28 bytes up to 2^29 - 32 the length times 8 is no [int]:
    [mdlen] is negative, and [md4_update] on an unfinished context then
    compresses nothing and does not look at the data.  The engine gets
    the whole bit length as one count: it adds it to the counter and
    prints the illegal-count diagnostic, in which [%d] shows the count as
    the negative number [8 * len - 2^32]; the state words and [done] are
    left as they were, and [md4_update] returns 1. *)
Theorem X11_md4_update_length_overflow (XX : list Z) (MD : MD4_CTX) (data : ptr) (len : Z) :
  MD4_CTX_ok MD → done MD = 0 →
  2 ^ 28 ≤ len ≤ 2 ^ 29 - 2 ^ 5 → le_value (count MD) + 8 * len < 2 ^ 64 →
  ∃ cnt msgs,
    md4_update XX (Build_PPP_MD_CTX (Some MD)) data len
    = Some (1, Build_PPP_MD_CTX (Some (Build_MD4_CTX (buffer MD) cnt 0)), msgs)
    ∧ stdout msgs
      = String "010"%char
          ("Error: MD4Update called with illegal count value "
           ++ NilZero.string_of_int (Z.to_int (8 * len - 2 ^ 32)) ++ ".")%string
    ∧ length cnt = 8%nat ∧ le_value cnt = le_value (count MD) + 8 * len.
Proof.
  intros (Hbuf & Hlen & Hbytes) Hdone Hrange Hfit.
  destruct (count_loop_spec (count MD) (8 * len) Hbytes)
    as (cnt & Hcnt & Hlen' & _ & Hval); [lia | by rewrite Hlen |].
  assert (s32 (8 * len) = 8 * len - 2 ^ 32) as Hint.
  { unfold s32. cbv zeta. rewrite Z.mod_small by lia.
    destruct (Z.ltb_spec (8 * len) (2 ^ 31)); lia. }
  exists cnt, [Error_illegal_count (8 * len)]. split_and!; [| |congruence|done].
  - unfold md4_update. cbn [priv mbind option_bind].
    replace (len * 8) with (8 * len) by lia. rewrite Hint.
    assert (Z.to_nat (8 * len - 2 ^ 32) = 0%nat) as -> by lia.
    cbn [md4_update_loop]. rewrite bool_decide_eq_false_2 by lia.
    cbn [mbind option_bind].
    assert (u32 (8 * len - 2 ^ 32) = 8 * len) as ->.
    { unfold u32. replace (8 * len - 2 ^ 32) with (8 * len + (-1) * 2 ^ 32) by lia.
      rewrite Z.mod_add by lia. apply Z.mod_small. lia. }
    rewrite (MD4Update_illegal _ _ _ _ cnt) by (done || lia). done.
  - unfold stdout, text, printf_d. cbn [fold_right]. rewrite Hint.
    by rewrite append_empty.
Qed.

Lemma X11_md4_update_length_overflow_witness :
  ∃ cnt msgs,
    md4_update [] (Build_PPP_MD_CTX (Some (MD4Init calloc_MD4_CTX))) NULL (2 ^ 28)
    = Some (1, Build_PPP_MD_CTX (Some
              (Build_MD4_CTX (buffer (MD4Init calloc_MD4_CTX)) cnt 0)), msgs)
    ∧ stdout msgs
      = String "010"%char
          "Error: MD4Update called with illegal count value -2147483648."
    ∧ length cnt = 8%nat
    ∧ le_value cnt = le_value (count (MD4Init calloc_MD4_CTX)) + 8 * 2 ^ 28.
Proof.
  assert (Hok : MD4_CTX_ok (MD4Init calloc_MD4_CTX)).
  { split_and!; [reflexivity | reflexivity |]. repeat constructor; done. }
  refine (X11_md4_update_length_overflow [] (MD4Init calloc_MD4_CTX) NULL (2 ^ 28)
            Hok eq_refl _ _); [lia | vm_compute; reflexivity].
Defined.

(** X12.  [MD4Update] keeps a context well formed: whenever it returns,
    [buffer] still has four words, each under 2^32 if they were, [count]
    still has eight bytes, and [done] is what it was or 1; it is never
    cleared. *)
Theorem X12_MD4Update_keeps_well_formed (XX : list Z) (MD MD' : MD4_CTX) (X : ptr)
    (n : Z) (msgs : list message) :
  MD4_CTX_ok MD → is_words (buffer MD) → 0 ≤ n →
  MD4Update XX MD X n = Some (MD', msgs) →
  MD4_CTX_ok MD' ∧ is_words (buffer MD') ∧ (done MD' = done MD ∨ done MD' = 1).
Proof.
  intros (Hbuf & Hlen & Hbytes) Hwords Hn Hrun.
  destruct (MD4Update_keeps XX MD MD' X n msgs Hbuf Hn Hrun)
    as (Hbuf' & Hlen' & Hbytes' & Hwords' & Hdone).
  split_and!; [split_and! | |]; auto. congruence.
Qed.

Lemma X12_MD4Update_keeps_well_formed_witness :
  MD4_CTX_ok (terminal (MD4Init calloc_MD4_CTX) (bytes_of "abc") 24 (le_bytes 8 24)).
Proof.
  assert (Hok : MD4_CTX_ok (MD4Init calloc_MD4_CTX)).
  { split_and!; [reflexivity | reflexivity |]. repeat constructor; done. }
  assert (Hwords : is_words (buffer (MD4Init calloc_MD4_CTX))).
  { repeat constructor; done. }
  refine (proj1 (X12_MD4Update_keeps_well_formed (replicate 64 0)
                   (MD4Init calloc_MD4_CTX)
                   (terminal (MD4Init calloc_MD4_CTX) (bytes_of "abc") 24 (le_bytes 8 24))
                   (Some (bytes_of "abc")) 24 [] Hok Hwords _ _));
    [lia | vm_compute; reflexivity].
Defined.

(** X13.  The macro [rot] is a rotation to the left of a 32-bit word: for
    a shift between 1 and 31, bit [i] of the result is bit [i - S] modulo
    32 of the argument taken modulo 2^32, and the result is under 2^32. *)
Theorem X13_rot_rotates (x s i : Z) :
  0 < s < 32 → 0 ≤ i < 32 →
  Z.testbit (rot x s) i = Z.testbit (u32 x) ((i - s) `mod` 32)
  ∧ 0 ≤ rot x s < 2 ^ 32.
Proof.
  intros Hs Hi. split.
  - rewrite testbit_rot by lia. by rewrite bool_decide_eq_true_2 by lia.
  - apply u32_fixed. intros j Hj. rewrite testbit_rot by lia.
    by rewrite bool_decide_eq_false_2 by lia.
Qed.

Lemma X13_rot_rotates_witness :
  Z.testbit (rot 0x180000001 3) 2 = Z.testbit (u32 0x180000001) ((2 - 3) `mod` 32).
Proof.
  refine (proj1 (X13_rot_rotates 0x180000001 3 2 _ _)); lia.
Defined.

(** X14.  The three macros act bit by bit on the low 32 bits: [f] selects
    the bit of its second argument where the first has a 1 and that of
    its third where it has a 0, [g] is the majority of the three bits, [h]
    their parity. *)
Theorem X14_selection_macros (X Y Z : BinNums.Z) (i : BinNums.Z) :
  0 ≤ i < 32 →
  Z.testbit (f X Y Z) i = (if Z.testbit X i then Z.testbit Y i else Z.testbit Z i)
  ∧ Z.testbit (g X Y Z) i
    = bool_decide (2 ≤ Z.b2z (Z.testbit X i) + Z.b2z (Z.testbit Y i)
                       + Z.b2z (Z.testbit Z i))
  ∧ Z.testbit (h X Y Z) i
    = Z.odd (Z.b2z (Z.testbit X i) + Z.b2z (Z.testbit Y i) + Z.b2z (Z.testbit Z i)).
Proof.
  intros Hi. unfold f, g, h.
  rewrite !Z.lor_spec, !Z.land_spec, !Z.lxor_spec, testbit_not32 by done.
  destruct (Z.testbit X i), (Z.testbit Y i), (Z.testbit Z i); done.
Qed.

Lemma X14_selection_macros_witness :
  Z.testbit (f 0xF0 0xCC 0xAA) 5
  = (if Z.testbit 0xF0 5 then Z.testbit 0xCC 5 else Z.testbit 0xAA 5).
Proof.
  refine (proj1 (X14_selection_macros 0xF0 0xCC 0xAA 5 _)). lia.
Defined.

(** X15.  Bits are read through the pointer whenever there are some to
    read: on an unfinished context, [MD4Update] with a count from 1 to 512
    and [md4_update] with a length from 1 up to 2^28 read through [NULL]
    when that is the pointer they are given. *)
Theorem X15_null_input (XX : list Z) (MD : MD4_CTX) (n len : Z) :
  done MD = 0 → 0 < n ≤ 512 → 0 < len < 2 ^ 28 →
  MD4Update XX MD NULL n = None
  ∧ md4_update XX (Build_PPP_MD_CTX (Some MD)) NULL len = None.
Proof.
  intros Hdone Hn Hlen. split; [by apply MD4Update_null | by apply md4_update_null].
Qed.

Lemma X15_null_input_witness :
  MD4Update [] (MD4Init calloc_MD4_CTX) NULL 8 = None
  ∧ md4_update [] (Build_PPP_MD_CTX (Some (MD4Init calloc_MD4_CTX))) NULL 1 = None.
Proof.
  refine (X15_null_input [] (MD4Init calloc_MD4_CTX) 8 1 eq_refl _ _); lia.
Defined.
